(** * A particle filter for robot localization: model and properties

    Shallow embedding of [robot_localization/pf.py]: the [Particle] class and
    the [ParticleFilter] node (update trigger, motion update, measurement
    update, pose estimate, resampling, initialization).

    Numbers.  Python's [float] and numpy's [float64] are IEEE 754 binary64;
    they are modelled by [spec_float] at precision 53 and maximal exponent
    1024, so that not-a-number, the infinities and division by zero behave
    as they do at run time.  The motion update also calls [cos], [sin],
    [arctan2] and a matrix inverse; it is written once over an interface
    [Numeric], instantiated at binary64 with the library routines left as
    parameters: what is proved of the motion update holds whatever these
    routines return, or is computed on routines tabulated at a few points.

    State.  The node's attributes are a record; methods are computations in a
    state-and-exception monad, an exception leaving the attributes as they
    were when it was raised. *)

From Stdlib Require Import ZArith List Bool Lia PeanoNat.
From Stdlib Require Import Floats.SpecFloat.
Import ListNotations.

(* ===================================================================== *)
(** * Binary64 arithmetic *)
(* ===================================================================== *)

Module B64.

Definition prec : Z := 53.
Definition emax : Z := 1024.

Definition float : Type := spec_float.

Definition fadd : float -> float -> float := SFadd prec emax.
Definition fsub : float -> float -> float := SFsub prec emax.
Definition fmul : float -> float -> float := SFmul prec emax.
Definition fdiv : float -> float -> float := SFdiv prec emax.
Definition fneg : float -> float := SFopp.
Definition fabs : float -> float := SFabs.
Definition fltb : float -> float -> bool := SFltb.
Definition fleb : float -> float -> bool := SFleb.
(** [a > b] is [b < a]; both are false when an operand is not a number. *)
Definition fgtb (a b : float) : bool := SFltb b a.
Definition fgeb (a b : float) : bool := SFleb b a.

Definition isnan (f : float) : bool :=
  match f with S754_nan => true | _ => false end.

Definition nan : float := S754_nan.
Definition pinf : float := S754_infinity false.

(** Conversion of a Python [int] to [float] (exact below 2^53). *)
Definition of_Z (z : Z) : float := binary_normalize prec emax z 0 false.
Definition of_nat (n : nat) : float := of_Z (Z.of_nat n).

Definition zero : float := S754_zero false.
Definition one : float := of_Z 1.
Definition five : float := of_Z 5.

(** [math.pi], the double 0x400921FB54442D18. *)
Definition pi : float := S754_finite false 7074237752028440 (-51).
(** The literal [0.2], the double 0x3FC999999999999A. *)
Definition lit_0_2 : float := S754_finite false 7205759403792794 (-55).

(** Floor of a float as an integer, for floats that are numbers. *)
Definition floorZ (f : float) : option Z :=
  match f with
  | S754_zero _ => Some 0%Z
  | S754_finite s m e =>
      let v := if s then Z.neg m else Z.pos m in
      Some (if (0 <=? e)%Z then Z.shiftl v e else Z.shiftr v (- e))
  | _ => None
  end.

(** The values an absolute value can take once not-a-number is excluded:
    [+0], a positive finite number, or [+inf]. *)
Definition nonneg (f : float) : bool :=
  match f with
  | S754_zero false | S754_infinity false | S754_finite false _ _ => true
  | _ => false
  end.

Definition is_zero (f : float) : bool :=
  match f with S754_zero _ => true | _ => false end.

End B64.

Import B64.

(* ===================================================================== *)
(** * Data model *)
(* ===================================================================== *)

(** [class Particle]: a pose hypothesis [x], [y], [theta] with a weight [w].
    The record is parametric in the number type. *)
Record Particle (F : Type) : Type := mkParticle
  { x : F; y : F; theta : F; w : F }.

Arguments mkParticle {F} _ _ _ _.
Arguments x {F} _.
Arguments y {F} _.
Arguments theta {F} _.
Arguments w {F} _.

Definition set_x {F} (v : F) (p : Particle F) : Particle F :=
  mkParticle v (y p) (theta p) (w p).
Definition set_y {F} (v : F) (p : Particle F) : Particle F :=
  mkParticle (x p) v (theta p) (w p).
Definition set_theta {F} (v : F) (p : Particle F) : Particle F :=
  mkParticle (x p) (y p) v (w p).
Definition set_w {F} (v : F) (p : Particle F) : Particle F :=
  mkParticle (x p) (y p) (theta p) v.

(** [geometry_msgs/Pose]: a position and an orientation quaternion. *)
Record Pose (F : Type) : Type := mkPose
  { position : F * F * F; orientation : F * F * F * F }.

Arguments mkPose {F} _ _.
Arguments position {F} _.
Arguments orientation {F} _.

(** A 3x3 array, row by row. *)
Record Matrix (F : Type) : Type := mkMatrix
  { m00 : F; m01 : F; m02 : F;
    m10 : F; m11 : F; m12 : F;
    m20 : F; m21 : F; m22 : F }.

Arguments mkMatrix {F} _ _ _ _ _ _ _ _ _.
Arguments m00 {F} _.
Arguments m01 {F} _.
Arguments m02 {F} _.
Arguments m10 {F} _.
Arguments m11 {F} _.
Arguments m12 {F} _.
Arguments m20 {F} _.
Arguments m21 {F} _.
Arguments m22 {F} _.

(** The numeric routines the motion update and [as_pose] call.  [inv] is
    [np.linalg.inv], which raises on a singular matrix ([None]). *)
Class Numeric (F : Type) : Type :=
  { num_zero : F;
    num_one : F;
    num_add : F -> F -> F;
    num_mul : F -> F -> F;
    num_neg : F -> F;
    np_cos : F -> F;
    np_sin : F -> F;
    np_arctan2 : F -> F -> F;
    np_linalg_inv : Matrix F -> option (Matrix F) }.

(** The helpers of the repository that the node is given: the transform
    helper's pose conversion, the quaternion conversion of [angle_helpers],
    and the occupancy field's query, which answers coordinate by coordinate
    on arrays (not-a-number off the map). *)
Class Helpers (F : Type) : Type :=
  { convert_pose_to_xy_and_theta : Pose F -> F * F * F;
    quaternion_from_euler : F -> F -> F -> F * F * F * F;
    get_closest_obstacle_distance : F -> F -> F }.

(** What the node sends out: the map-to-odom correction requested by
    [update_robot_pose], its warning, and the published particle cloud. *)
Inductive Event (F : Type) : Type :=
| FixMapToOdom (robot odom : Pose F)
| WarnNoOdom
| PublishParticles (stamp : nat) (particles : list (Pose F * F)).

Arguments FixMapToOdom {F} _ _.
Arguments WarnNoOdom {F}.
Arguments PublishParticles {F} _ _.

(** The attributes of [ParticleFilter].  [current_odom_xy_theta] is the empty
    list until the first odometry pose ([None]); [odom_pose] and [robot_pose]
    exist only once assigned.  [rng] and [rng_pos] are numpy's global random
    generator: the stream of uniform samples of [0, 1) and how many were
    consumed.  [emitted] lists the events sent out, latest first. *)
Record ParticleFilter (F : Type) : Type := mkPF
  { n_particles : nat;
    d_thresh : F;
    a_thresh : F;
    scan_to_process : option nat;
    last_scan_timestamp : option nat;
    particle_cloud : list (Particle F);
    current_odom_xy_theta : option (F * F * F);
    odom_pose : option (Pose F);
    robot_pose : option (Pose F);
    rng : nat -> F;
    rng_pos : nat;
    emitted : list (Event F) }.

Arguments mkPF {F} _ _ _ _ _ _ _ _ _ _ _ _.
Arguments n_particles {F} _.
Arguments d_thresh {F} _.
Arguments a_thresh {F} _.
Arguments scan_to_process {F} _.
Arguments last_scan_timestamp {F} _.
Arguments particle_cloud {F} _.
Arguments current_odom_xy_theta {F} _.
Arguments odom_pose {F} _.
Arguments robot_pose {F} _.
Arguments rng {F} _.
Arguments rng_pos {F} _.
Arguments emitted {F} _.

Definition with_cloud {F} (c : list (Particle F)) (s : ParticleFilter F) :=
  mkPF (n_particles s) (d_thresh s) (a_thresh s) (scan_to_process s)
       (last_scan_timestamp s) c (current_odom_xy_theta s) (odom_pose s)
       (robot_pose s) (rng s) (rng_pos s) (emitted s).
Definition with_current_odom {F} (o : option (F * F * F)) (s : ParticleFilter F) :=
  mkPF (n_particles s) (d_thresh s) (a_thresh s) (scan_to_process s)
       (last_scan_timestamp s) (particle_cloud s) o (odom_pose s)
       (robot_pose s) (rng s) (rng_pos s) (emitted s).
Definition with_odom_pose {F} (o : option (Pose F)) (s : ParticleFilter F) :=
  mkPF (n_particles s) (d_thresh s) (a_thresh s) (scan_to_process s)
       (last_scan_timestamp s) (particle_cloud s) (current_odom_xy_theta s) o
       (robot_pose s) (rng s) (rng_pos s) (emitted s).
Definition with_robot_pose {F} (o : option (Pose F)) (s : ParticleFilter F) :=
  mkPF (n_particles s) (d_thresh s) (a_thresh s) (scan_to_process s)
       (last_scan_timestamp s) (particle_cloud s) (current_odom_xy_theta s)
       (odom_pose s) o (rng s) (rng_pos s) (emitted s).
Definition with_scan {F} (o : option nat) (s : ParticleFilter F) :=
  mkPF (n_particles s) (d_thresh s) (a_thresh s) o
       (last_scan_timestamp s) (particle_cloud s) (current_odom_xy_theta s)
       (odom_pose s) (robot_pose s) (rng s) (rng_pos s) (emitted s).
Definition with_last_stamp {F} (o : option nat) (s : ParticleFilter F) :=
  mkPF (n_particles s) (d_thresh s) (a_thresh s) (scan_to_process s)
       o (particle_cloud s) (current_odom_xy_theta s)
       (odom_pose s) (robot_pose s) (rng s) (rng_pos s) (emitted s).
Definition with_rng_pos {F} (k : nat) (s : ParticleFilter F) :=
  mkPF (n_particles s) (d_thresh s) (a_thresh s) (scan_to_process s)
       (last_scan_timestamp s) (particle_cloud s) (current_odom_xy_theta s)
       (odom_pose s) (robot_pose s) (rng s) k (emitted s).
Definition with_event {F} (e : Event F) (s : ParticleFilter F) :=
  mkPF (n_particles s) (d_thresh s) (a_thresh s) (scan_to_process s)
       (last_scan_timestamp s) (particle_cloud s) (current_odom_xy_theta s)
       (odom_pose s) (robot_pose s) (rng s) (rng_pos s) (e :: emitted s).

(* ===================================================================== *)
(** * Exceptions and the state monad of the node *)
(* ===================================================================== *)

Inductive Exn : Type :=
| ValueError | IndexError | AttributeError | LinAlgError | ZeroDivisionError.

Inductive Outcome (A : Type) : Type :=
| Returned (a : A)
| Raised (e : Exn).

Arguments Returned {A} _.
Arguments Raised {A} _.

(** A method of a node whose attributes have type [S]. *)
Definition M (S A : Type) : Type := S -> Outcome A * S.

Definition ret {S A} (a : A) : M S A := fun s => (Returned a, s).
Definition bind {S A B} (c : M S A) (k : A -> M S B) : M S B :=
  fun s => match c s with
           | (Returned a, s') => k a s'
           | (Raised e, s') => (Raised e, s')
           end.
Definition raise {S A} (e : Exn) : M S A := fun s => (Raised e, s).
Definition get {S} : M S S := fun s => (Returned s, s).
Definition gets {S A} (f : S -> A) : M S A := fun s => (Returned (f s), s).
Definition modify {S} (f : S -> S) : M S unit := fun s => (Returned tt, f s).
(** A library call that may raise. *)
Definition lift {S A} (e : Exn) (o : option A) : M S A :=
  match o with Some a => ret a | None => raise e end.

Declare Scope pf_scope.
Delimit Scope pf_scope with pf.
Notation "v <- c ;; k" := (bind c (fun v => k))
  (at level 61, c at next level, right associativity) : pf_scope.
Notation "c ;;; k" := (bind c (fun _ => k))
  (at level 61, right associativity) : pf_scope.
Open Scope pf_scope.

(** The attributes after running a method, whether it returned or raised. *)
Definition exec {S A} (c : M S A) (s : S) : S := snd (c s).
Definition result {S A} (c : M S A) (s : S) : Outcome A := fst (c s).

(** A [for] loop over a list, stopping at the first exception. *)
Fixpoint for_each {S A} (body : A -> M S unit) (l : list A) : M S unit :=
  match l with
  | [] => ret tt
  | a :: l' => body a ;;; for_each body l'
  end.

(** In-place update of the object at [l[i]] (nothing to update when [i] is
    out of range; the callers read [l[i]] first, which raises there). *)
Fixpoint update_nth {A} (i : nat) (f : A -> A) (l : list A) : list A :=
  match l, i with
  | [], _ => []
  | a :: l', O => f a :: l'
  | a :: l', S i' => a :: update_nth i' f l'
  end.

(* ===================================================================== *)
(** * The numpy routines the node calls, on binary64 arrays *)
(* ===================================================================== *)

Module Np.

(** [np.min]: the least element; not-a-number wins; an empty array raises. *)
Definition min2 (a b : float) : float :=
  if isnan a then a else if isnan b then b else if fltb b a then b else a.

Definition amin (l : list float) : option float :=
  match l with
  | [] => None
  | a :: l' => Some (fold_left min2 l' a)
  end.

(** [np.sum]: the elements added up from [0.0].  (numpy adds a long array in
    blocks; the order changes the rounding of a finite sum only.) *)
Definition sum (l : list float) : float := fold_left fadd l zero.

(** [np.argmax], as numpy's inner loop: the running maximum is replaced by an
    element that is not [<=] it, and a not-a-number ends the scan. *)
Fixpoint argmax_from (l : list float) (i : nat) (mp : float) (best : nat) : nat :=
  match l with
  | [] => best
  | a :: l' =>
      if fleb a mp then argmax_from l' (S i) mp best
      else if isnan a then i
      else argmax_from l' (S i) a i
  end.

Definition argmax (l : list float) : option nat :=
  match l with
  | [] => None
  | a :: l' => Some (if isnan a then O else argmax_from l' 1 a O)
  end.

(** Ascending sort of an array without not-a-number. *)
Fixpoint insert (a : float) (l : list float) : list float :=
  match l with
  | [] => [a]
  | b :: l' => if fleb a b then a :: l else b :: insert a l'
  end.

Definition sort (l : list float) : list float := fold_right insert [] l.

(** numpy's linear interpolation between two order statistics. *)
Definition lerp (a b t : float) : float :=
  let diff_b_a := fsub b a in
  if fgeb t (fdiv one (of_Z 2))
  then fsub b (fmul diff_b_a (fsub one t))
  else fadd a (fmul diff_b_a t).

(** The element at a numpy index, [-1] being the last one. *)
Definition at_index (l : list float) (k : Z) : float :=
  if (k <? 0)%Z then last l nan else nth (Z.to_nat k) l nan.

(** [np.percentile(a, q)] with the default linear method: the virtual index
    [(n - 1) * (q / 100)], its floor and successor (both the last index when
    the virtual index reaches it), and [lerp] between the two sorted values.
    An array holding not-a-number gives not-a-number; an empty one raises. *)
Definition percentile (a : list float) (q : float) : option float :=
  match a with
  | [] => None
  | _ =>
      if existsb isnan a then Some nan
      else
        let n1 := of_nat (length a - 1) in
        let virtual_index := fmul n1 (fdiv q (of_Z 100)) in
        match floorZ virtual_index with
        | None => Some nan
        | Some k =>
            let above := fgeb virtual_index n1 in
            let previous_index := if above then (-1)%Z else k in
            let next_index := if above then (-1)%Z else (k + 1)%Z in
            let sorted := sort a in
            let gamma := fsub virtual_index (of_Z previous_index) in
            Some (lerp (at_index sorted previous_index)
                       (at_index sorted next_index) gamma)
        end
  end.

(** [np.where(a <= t)[0]]: the indices of the elements at most [t]. *)
Definition where_le (a : list float) (t : float) : list nat :=
  map fst (filter (fun iv => fleb (snd iv) t) (combine (seq 0 (length a)) a)).

(** The compensated sum [np.random.choice] checks its probabilities with. *)
Fixpoint kahan_loop (l : list float) (sum c : float) : float :=
  match l with
  | [] => sum
  | d :: l' =>
      let yv := fsub d c in
      let t := fadd sum yv in
      kahan_loop l' t (fsub (fsub t sum) yv)
  end.

Definition kahan_sum (l : list float) : float :=
  match l with
  | [] => zero
  | d :: l' => kahan_loop l' d zero
  end.

Fixpoint cumsum_from (acc : float) (l : list float) : list float :=
  match l with
  | [] => []
  | a :: l' => let acc' := fadd acc a in acc' :: cumsum_from acc' l'
  end.

Definition cumsum (l : list float) : list float :=
  match l with
  | [] => []
  | a :: l' => a :: cumsum_from a l'
  end.

(** [cdf.searchsorted(u, side='right')] on a sorted array: the number of
    leading elements that are [<= u]. *)
Fixpoint searchsorted_right (cdf : list float) (u : float) : nat :=
  match cdf with
  | [] => O
  | c :: cdf' => if fleb c u then S (searchsorted_right cdf' u) else O
  end.

(** The tolerance of [np.random.choice]: the square root of the machine
    epsilon [2^-52], that is [2^-26]. *)
Definition atol : float := S754_finite false 4503599627370496 (-78).

(** What [np.random.choice(range(pop_size), size, p=p)] checks before it
    draws: [true] when it raises [ValueError] (an empty population, sizes
    that differ, a not-a-number or negative probability, or a sum further
    than [atol] from 1). *)
Definition choice_rejects (pop_size size : nat) (p : list float) : bool :=
  ((pop_size =? 0) && negb (size =? 0))
  || negb (length p =? pop_size)
  || isnan (kahan_sum p)
  || existsb (fun v => fltb v zero) p
  || fgtb (fabs (fsub (kahan_sum p) one)) atol.

(** The indices drawn for the uniform samples [us]: inverse transform of the
    normalised cumulative distribution. *)
Definition choice_indices (p : list float) (us : list float) : list nat :=
  let cdf := cumsum p in
  let cdf := map (fun c => fdiv c (last cdf nan)) cdf in
  map (searchsorted_right cdf) us.

End Np.

(* ===================================================================== *)
(** * The node, over any number type: poses and the motion update *)
(* ===================================================================== *)

Section Motion.

Context {F : Type} {num : Numeric F} {hlp : Helpers F}.

(** [Particle.as_pose] *)
Definition as_pose (p : Particle F) : Pose F :=
  mkPose (x p, y p, num_zero)
         (quaternion_from_euler num_zero num_zero (theta p)).

(** [ParticleFilter.create_pose] *)
Definition create_pose (v_pose : F * F * F) : Matrix F :=
  let '(vx, vy, vt) := v_pose in
  mkMatrix (np_cos vt) (num_neg (np_sin vt)) vx
           (np_sin vt) (np_cos vt)           vy
           num_zero    num_zero              num_one.

Definition dot3 (a0 a1 a2 b0 b1 b2 : F) : F :=
  num_add (num_add (num_mul a0 b0) (num_mul a1 b1)) (num_mul a2 b2).

(** The array product [a @ b]. *)
Definition matmul (a b : Matrix F) : Matrix F :=
  mkMatrix
    (dot3 (m00 a) (m01 a) (m02 a) (m00 b) (m10 b) (m20 b))
    (dot3 (m00 a) (m01 a) (m02 a) (m01 b) (m11 b) (m21 b))
    (dot3 (m00 a) (m01 a) (m02 a) (m02 b) (m12 b) (m22 b))
    (dot3 (m10 a) (m11 a) (m12 a) (m00 b) (m10 b) (m20 b))
    (dot3 (m10 a) (m11 a) (m12 a) (m01 b) (m11 b) (m21 b))
    (dot3 (m10 a) (m11 a) (m12 a) (m02 b) (m12 b) (m22 b))
    (dot3 (m20 a) (m21 a) (m22 a) (m00 b) (m10 b) (m20 b))
    (dot3 (m20 a) (m21 a) (m22 a) (m01 b) (m11 b) (m21 b))
    (dot3 (m20 a) (m21 a) (m22 a) (m02 b) (m12 b) (m22 b)).

(** One turn of the loop of [update_particles_with_odom]: the particle's pose
    matrix times the odometry delta gives its new [x], [y] and [theta]. *)
Definition move_particle (delta_matrix : Matrix F) (particle : Particle F)
  : Particle F :=
  let particle_matrix := create_pose (x particle, y particle, theta particle) in
  let particle_matrix_new := matmul particle_matrix delta_matrix in
  set_theta (np_arctan2 (m10 particle_matrix_new) (m00 particle_matrix_new))
    (set_y (m12 particle_matrix_new)
       (set_x (m02 particle_matrix_new) particle)).

(** [ParticleFilter.update_particles_with_odom].  The loop treats each
    particle on its own, so it is a [map] over the cloud. *)
Definition update_particles_with_odom : M (ParticleFilter F) unit :=
  pose <- gets odom_pose ;;
  pose <- lift AttributeError pose ;;
  let new_odom_xy_theta := convert_pose_to_xy_and_theta pose in
  current <- gets current_odom_xy_theta ;;
  match current with
  | Some current =>
      let new_odom_matrix := create_pose new_odom_xy_theta in
      let curr_odom_matrix := create_pose current in
      inverse <- lift LinAlgError (np_linalg_inv curr_odom_matrix) ;;
      let delta_matrix := matmul inverse new_odom_matrix in
      modify (with_current_odom (Some new_odom_xy_theta)) ;;;
      modify (fun s =>
                with_cloud (map (move_particle delta_matrix) (particle_cloud s)) s)
  | None =>
      modify (with_current_odom (Some new_odom_xy_theta))
  end.

(** [ParticleFilter.publish_particles] *)
Definition publish_particles (timestamp : nat) : M (ParticleFilter F) unit :=
  modify (fun s =>
            with_event
              (PublishParticles timestamp
                 (map (fun p => (as_pose p, w p)) (particle_cloud s))) s).

(** [ParticleFilter.scan_received] *)
Definition scan_received (stamp : nat) : M (ParticleFilter F) unit :=
  modify (with_last_stamp (Some stamp)) ;;;
  pending <- gets scan_to_process ;;
  match pending with
  | None => modify (with_scan (Some stamp))
  | Some _ => ret tt
  end.

End Motion.

(* ===================================================================== *)
(** * The node on binary64 *)
(* ===================================================================== *)

(** The binary64 instance of the numeric interface.  Sums and products are
    IEEE operations; the trigonometric routines and the LAPACK inverse are
    whatever the platform provides. *)
Definition float_numeric
  (libm_cos libm_sin : float -> float) (libm_atan2 : float -> float -> float)
  (lapack_inv : Matrix float -> option (Matrix float)) : Numeric float :=
  {| num_zero := zero;
     num_one := one;
     num_add := fadd;
     num_mul := fmul;
     num_neg := fneg;
     np_cos := libm_cos;
     np_sin := libm_sin;
     np_arctan2 := libm_atan2;
     np_linalg_inv := lapack_inv |}.

Definition Node : Type := ParticleFilter float.

Section Float64Node.

Context {num : Numeric float} {hlp : Helpers float}.

(** The node as [__init__] leaves it, for a given random stream. *)
Definition init_node (stream : nat -> float) : Node :=
  mkPF 100 lit_0_2 (fdiv pi (of_Z 6)) None None [] None None None stream 0 [].

(** [ParticleFilter.moved_far_enough_to_update] *)
Definition moved_far_enough_to_update (new_odom_xy_theta : float * float * float)
  : M Node bool :=
  current <- gets current_odom_xy_theta ;;
  current <- lift IndexError current ;;
  d <- gets d_thresh ;;
  a <- gets a_thresh ;;
  let '(nx, ny, nt) := new_odom_xy_theta in
  let '(cx, cy, ct) := current in
  ret (fgtb (fabs (fsub nx cx)) d
       || fgtb (fabs (fsub ny cy)) d
       || fgtb (fabs (fsub nt ct)) a).

(** [ParticleFilter.update_robot_pose] *)
Definition update_robot_pose : M Node unit :=
  cloud <- gets particle_cloud ;;
  let weights := map w cloud in
  best <- lift ValueError (Np.argmax weights) ;;
  probable_particle <- lift IndexError (nth_error cloud best) ;;
  let pose := as_pose probable_particle in
  modify (with_robot_pose (Some pose)) ;;;
  odom <- gets odom_pose ;;
  match odom with
  | Some odom => modify (with_event (FixMapToOdom pose odom))
  | None => modify (with_event WarnNoOdom)
  end.

(** The weight function of [update_particles_with_laser], step by step. *)
Definition particle_distances (cloud : list (Particle float)) : list float :=
  let particle_x := map x cloud in
  let particle_y := map y cloud in
  map (fun xy => get_closest_obstacle_distance (fst xy) (snd xy))
      (combine particle_x particle_y).

Definition laser_errors (robot_distance : float) (distances : list float)
  : list float :=
  let errors := map (fun d => fabs (fsub d robot_distance)) distances in
  map (fun e => if isnan e then five else e) errors.

(** The entry of [laser_errors] for one particle, given the observed minimum
    range: the absolute difference to its predicted distance, or 5 when that
    is not a number. *)
Definition error_of (robot_distance : float) (q : Particle float) : float :=
  let e := fabs (fsub (get_closest_obstacle_distance (x q) (y q)) robot_distance) in
  if isnan e then five else e.

Definition laser_weights (errors : list float) : option (list float) :=
  match nth_error errors 0 with
  | None => None
  | Some e0 =>
      let error_ratio := map (fun e => fdiv e0 e) errors in
      Some (map (fun q => fdiv q (Np.sum error_ratio)) error_ratio)
  end.

(** The loop that stores the weights, not-a-number becoming [0]. *)
Definition store_weight (pw : Particle float * float) : Particle float :=
  if isnan (snd pw) then set_w zero (fst pw) else set_w (snd pw) (fst pw).

(** [ParticleFilter.update_particles_with_laser] *)
Definition update_particles_with_laser (r theta_scan : list float) : M Node unit :=
  cloud <- gets particle_cloud ;;
  let distances := particle_distances cloud in
  robot_distance <- lift ValueError (Np.amin r) ;;
  let errors := laser_errors robot_distance distances in
  weights <- lift IndexError (laser_weights errors) ;;
  modify (fun s =>
            with_cloud (map store_weight (combine (particle_cloud s) weights)) s).

(** [np.random.random_sample()]: the next sample of the global generator. *)
Definition random_sample : M Node float :=
  s <- get ;;
  modify (with_rng_pos (S (rng_pos s))) ;;;
  ret (rng s (rng_pos s)).

Fixpoint random_samples (size : nat) : M Node (list float) :=
  match size with
  | O => ret []
  | S size' =>
      u <- random_sample ;;
      us <- random_samples size' ;;
      ret (u :: us)
  end.

(** [np.random.uniform(low, high)] *)
Definition random_uniform (low high : float) : M Node float :=
  u <- random_sample ;;
  ret (fadd low (fmul (fsub high low) u)).

(** [np.random.choice(range(pop_size), size, p=p)] *)
Definition random_choice (pop_size size : nat) (p : list float)
  : M Node (list nat) :=
  if Np.choice_rejects pop_size size p then raise ValueError
  else
    us <- random_samples size ;;
    ret (Np.choice_indices p us).

(** [self.particle_cloud[i]], and an assignment to one of its attributes. *)
Definition particle_at (i : nat) : M Node (Particle float) :=
  cloud <- gets particle_cloud ;;
  lift IndexError (nth_error cloud i).

Definition set_particle (i : nat) (f : Particle float -> Particle float)
  : M Node unit :=
  particle_at i ;;;
  modify (fun s => with_cloud (update_nth i f (particle_cloud s)) s).

(** One turn of the replacement loop of [resample_particles]: the three
    assignments, each reading the donor as the cloud stands at that point. *)
Definition replace_particle (pair : nat * nat) : M Node unit :=
  let '(i_replace, i_new) := pair in
  donor <- particle_at i_new ;;
  set_particle i_replace (set_x (x donor)) ;;;
  donor <- particle_at i_new ;;
  set_particle i_replace (set_y (y donor)) ;;;
  donor <- particle_at i_new ;;
  noise <- random_uniform (fdiv (fneg pi) (of_Z 4)) (fdiv pi (of_Z 4)) ;;
  set_particle i_replace (set_theta (fadd (theta donor) noise)).

(** [ParticleFilter.resample_particles].  The drawn indices are integers
    already, so [astype(np.int)] leaves them as they are. *)
Definition resample_particles : M Node unit :=
  cloud <- gets particle_cloud ;;
  let weights := map w cloud in
  weights_to_replace <- lift IndexError (Np.percentile weights (of_Z 20)) ;;
  let i_particles_to_replace := Np.where_le weights weights_to_replace in
  let num_replace := length i_particles_to_replace in
  i_new_locations <- random_choice (length weights) num_replace weights ;;
  for_each replace_particle (combine i_particles_to_replace i_new_locations).

(** [ParticleFilter.initialize_particle_cloud] *)
Definition initialize_particle_cloud (timestamp : nat)
  (xy_theta : option (float * float * float)) : M Node unit :=
  xy_theta <- match xy_theta with
              | Some v => ret v
              | None =>
                  pose <- gets odom_pose ;;
                  pose <- lift AttributeError pose ;;
                  ret (convert_pose_to_xy_and_theta pose)
              end ;;
  modify (with_cloud []) ;;;
  n <- gets n_particles ;;
  if (n =? 0) then raise ZeroDivisionError
  else
    let delta_theta := fdiv (fmul (of_Z 2) pi) (of_nat n) in
    let '(x0, y0, theta0) := xy_theta in
    modify (with_cloud
              (map (fun i => mkParticle x0 y0
                               (fadd theta0 (fmul delta_theta (of_nat i))) one)
                   (seq 0 n))) ;;;
    update_robot_pose.

(** [ParticleFilter.update_initial_pose] *)
Definition update_initial_pose (stamp : nat) (pose : Pose float) : M Node unit :=
  initialize_particle_cloud stamp (Some (convert_pose_to_xy_and_theta pose)).

(** The four steps of a filter update, in the order [run_loop] runs them. *)
Definition filter_update (r theta_scan : list float) : M Node unit :=
  update_particles_with_odom ;;;
  update_particles_with_laser r theta_scan ;;;
  update_robot_pose ;;;
  resample_particles.

(** [ParticleFilter.run_loop].  The transform helper's answers for the
    pending scan are arguments: the matching odometry pose (if any), whether
    the time difference it reports is negative, and the scan in polar
    coordinates. *)
Definition run_loop (new_pose : option (Pose float)) (delta_t_negative : bool)
  (r theta_scan : list float) : M Node unit :=
  pending <- gets scan_to_process ;;
  match pending with
  | None => ret tt
  | Some stamp =>
      match new_pose with
      | None =>
          if delta_t_negative then modify (with_scan None) else ret tt
      | Some new_pose =>
          modify (with_scan None) ;;;
          modify (with_odom_pose (Some new_pose)) ;;;
          let new_odom_xy_theta := convert_pose_to_xy_and_theta new_pose in
          current <- gets current_odom_xy_theta ;;
          cloud <- gets particle_cloud ;;
          match current, cloud with
          | None, _ => modify (with_current_odom (Some new_odom_xy_theta))
          | Some _, [] => initialize_particle_cloud stamp None
          | Some _, _ :: _ =>
              far <- moved_far_enough_to_update new_odom_xy_theta ;;
              if far then filter_update r theta_scan else ret tt
          end ;;;
          publish_particles stamp
      end
  end.

(** The particle the seeding loop of [initialize_particle_cloud] appends at
    turn [i], around [(x0, y0, t0)] for a population of [n]. *)
Definition seeded_particle (n : nat) (x0 y0 t0 : float) (i : nat) : Particle float :=
  mkParticle x0 y0
    (fadd t0 (fmul (fdiv (fmul (of_Z 2) pi) (of_nat n)) (of_nat i))) one.

(** What [run_loop] does between taking the pending scan and publishing:
    the three branches on the odometry reference and the population. *)
Definition cycle_body (new_pose : Pose float) (stamp : nat) (r theta_scan : list float)
  : M Node unit :=
  current <- gets current_odom_xy_theta ;;
  cloud <- gets particle_cloud ;;
  match current, cloud with
  | None, _ =>
      modify (with_current_odom (Some (convert_pose_to_xy_and_theta new_pose)))
  | Some _, [] => initialize_particle_cloud stamp None
  | Some _, _ :: _ =>
      far <- moved_far_enough_to_update (convert_pose_to_xy_and_theta new_pose) ;;
      if far then filter_update r theta_scan else ret tt
  end.

End Float64Node.

(* ===================================================================== *)
(** * Exact steps of the binary64 motion update *)
(* ===================================================================== *)

(** A finite double: a signed zero, or a mantissa and an exponent that fit
    the format (normal and subnormal numbers). *)
Definition finite_double (f : float) : bool :=
  match f with
  | S754_zero _ => true
  | S754_finite _ m e => bounded prec emax m e
  | _ => false
  end.

(** Equal as numbers: the same double, or two zeros of whatever sign
    ([0.0 == -0.0] in Python). *)
Definition same_number (a b : float) : Prop :=
  a = b \/ (is_zero a = true /\ is_zero b = true).

(** A delta matrix that is the identity: ones on the diagonal and zeros
    elsewhere, of whatever sign (the pose matrix holds [-sin], so the
    inverse and the product may hold [-0.0]). *)
Definition identity_matrix (m : Matrix float) : Prop :=
  m00 m = one /\ m11 m = one /\ m22 m = one /\
  is_zero (m01 m) = true /\ is_zero (m02 m) = true /\
  is_zero (m10 m) = true /\ is_zero (m12 m) = true /\
  is_zero (m20 m) = true /\ is_zero (m21 m) = true.

(* ===================================================================== *)
(** * Fixtures on binary64 *)
(* ===================================================================== *)

Module Fixture.

(** Routines tabulated at the only points the examples visit: the angle 0
    and the identity matrix; anything else is not-a-number or an error. *)
Definition cos0 (t : float) : float := if is_zero t then one else nan.
Definition sin0 (t : float) : float := if is_zero t then zero else nan.
Definition atan2_0 (b a : float) : float :=
  if is_zero b && SFeqb a one then zero else nan.
Definition identity : Matrix float :=
  mkMatrix one zero zero zero one zero zero zero one.
Definition matrix_eqb (a b : Matrix float) : bool :=
  SFeqb (m00 a) (m00 b) && SFeqb (m01 a) (m01 b) && SFeqb (m02 a) (m02 b)
  && SFeqb (m10 a) (m10 b) && SFeqb (m11 a) (m11 b) && SFeqb (m12 a) (m12 b)
  && SFeqb (m20 a) (m20 b) && SFeqb (m21 a) (m21 b) && SFeqb (m22 a) (m22 b).
Definition inv_identity (m : Matrix float) : option (Matrix float) :=
  if matrix_eqb m identity then Some identity else None.

Definition numeric : Numeric float :=
  float_numeric cos0 sin0 atan2_0 inv_identity.

(** A map whose only obstacle is the wall [x = 0], known for [|x| <= 10]:
    the distance to it is [|x|], and not-a-number off the map. *)
Definition wall_distance (px py : float) : float :=
  if fleb (fabs px) (of_Z 10) then fabs px else nan.

Definition helpers : Helpers float :=
  {| convert_pose_to_xy_and_theta :=
       fun p => (fst (fst (position p)), snd (fst (position p)),
                 snd (fst (orientation p)));
     quaternion_from_euler := fun _ _ yaw => (zero, zero, yaw, one);
     get_closest_obstacle_distance := wall_distance |}.

Definition particle (px py pt pw : Z) : Particle float :=
  mkParticle (of_Z px) (of_Z py) (of_Z pt) (of_Z pw).

(** A random stream that always answers [0.5]. *)
Definition half_stream (_ : nat) : float := fdiv one (of_Z 2).

(** A tracking node: two particles at distances 2 and 3 from the wall, the
    odometry reference at the origin. *)
Definition origin_pose : Pose float := mkPose (zero, zero, zero) (zero, zero, zero, one).

Definition tracking_node : Node :=
  mkPF 100 lit_0_2 (fdiv pi (of_Z 6)) (Some 7) (Some 7)
       [particle 2 0 0 1; particle 3 0 0 1]
       (Some (zero, zero, zero)) (Some origin_pose) None half_stream 0 [].

End Fixture.

(** The library routines at the angles 0 and [2 pi], with the values the C
    library returns there: [cos] is 1.0 at both; [sin] keeps a zero and is
    -2.4492935982947064e-16 at the double nearest to [2 pi], which is not a
    multiple of pi; [arctan2 b 1.0] keeps a zero and returns that tiny [b]
    unchanged.  Anything else is not-a-number. *)
Module Table.

(** [2 * math.pi], 6.283185307179586. *)
Definition two_pi : float := S754_finite false 7074237752028440 (-50).
(** [math.sin (2 * math.pi)], -2.4492935982947064e-16. *)
Definition sin_two_pi : float := S754_finite true 4967757600021511 (-104).

Definition cos (t : float) : float :=
  if is_zero t then one else if SFeqb t two_pi then one else nan.
Definition sin (t : float) : float :=
  if is_zero t then t else if SFeqb t two_pi then sin_two_pi else nan.
Definition arctan2 (b a : float) : float :=
  if SFeqb a one then
    if is_zero b then b else if SFeqb b sin_two_pi then sin_two_pi else nan
  else nan.

Definition numeric : Numeric float :=
  float_numeric cos sin arctan2 Fixture.inv_identity.

(** A node at rest: odometry pose and odometry reference both at the origin
    with yaw 0, and one particle at the origin of heading [heading]. *)
Definition node_at_rest (heading : float) : Node :=
  mkPF 1 lit_0_2 (fdiv pi (of_Z 6)) None None
       [mkParticle zero zero heading one]
       (Some (zero, zero, zero)) (Some Fixture.origin_pose) None
       Fixture.half_stream 0 [].

End Table.

(* ===================================================================== *)
(** * Relations between the attributes before and after a method *)
(* ===================================================================== *)

(** A method [keeps] a relation when the attributes it ends with, returning
    or raising, are related to those it started from. *)
Definition keeps {S A : Type} (R : S -> S -> Prop) (c : M S A) : Prop :=
  forall s, R s (exec c s).

(** The population has the same size. *)
Definition same_size {F} (s s' : ParticleFilter F) : Prop :=
  length (particle_cloud s') = length (particle_cloud s).

(** The frame of a replacement of the particles at the indices [L]: same
    size, every weight as before, and the particles outside [L] untouched. *)
Definition frame {F} (L : list nat) (s s' : ParticleFilter F) : Prop :=
  length (particle_cloud s') = length (particle_cloud s) /\
  (forall j, option_map w (nth_error (particle_cloud s') j)
             = option_map w (nth_error (particle_cloud s) j)) /\
  (forall j, ~ In j L ->
             nth_error (particle_cloud s') j = nth_error (particle_cloud s) j).

(** Every particle of [s'] stands where some particle of [s] stood. *)
Definition positions_from {F} (s s' : ParticleFilter F) : Prop :=
  Forall (fun p' => exists p, In p (particle_cloud s) /\ x p' = x p /\ y p' = y p)
         (particle_cloud s').

(** What the steps of a filter update leave alone: the configuration, the
    random stream, the pending scan, the last stamp and the odometry pose;
    and an odometry reference, once known, stays known. *)
Definition wiring {F} (s s' : ParticleFilter F) : Prop :=
  n_particles s' = n_particles s /\ d_thresh s' = d_thresh s /\
  a_thresh s' = a_thresh s /\ rng s' = rng s /\
  scan_to_process s' = scan_to_process s /\
  last_scan_timestamp s' = last_scan_timestamp s /\
  odom_pose s' = odom_pose s /\
  (current_odom_xy_theta s <> None -> current_odom_xy_theta s' <> None).

Definition is_publication {F} (e : Event F) : bool :=
  match e with PublishParticles _ _ => true | _ => false end.

(** The events of [s'] are those of [s] and, before them, events that are
    no publication of the particle cloud. *)
Definition quiet {F} (s s' : ParticleFilter F) : Prop :=
  exists l, emitted s' = l ++ emitted s /\
            forallb (fun e => negb (is_publication e)) l = true.

(* ===================================================================== *)
(** * The models on small arrays *)
(* ===================================================================== *)

Example lit_0_2_is_two_tenths : fdiv (of_Z 2) (of_Z 10) = lit_0_2.
Proof. vm_compute. reflexivity. Qed.

Example atol_squared_is_epsilon :
  fmul Np.atol Np.atol = S754_finite false 4503599627370496 (-104).
Proof. vm_compute. reflexivity. Qed.

Example division_by_zero :
  fdiv one zero = pinf /\ fdiv zero zero = nan /\ fdiv pinf pinf = nan.
Proof. repeat split. Qed.

Example argmax_takes_the_first_maximum :
  Np.argmax (map of_Z [1; 3; 3; 2]%Z) = Some 1.
Proof. vm_compute. reflexivity. Qed.

Example argmax_stops_at_nan : Np.argmax [of_Z 1; nan; of_Z 5] = Some 1.
Proof. vm_compute. reflexivity. Qed.

Example amin_propagates_nan : Np.amin [of_Z 2; nan; of_Z 1] = Some nan.
Proof. vm_compute. reflexivity. Qed.

(** The 20th percentile of 1..5 is 1.8, the double 0x3FFCCCCCCCCCCCCD. *)
Example percentile_of_one_to_five :
  Np.percentile (map of_Z [5; 1; 4; 2; 3]%Z) (of_Z 20)
  = Some (S754_finite false 8106479329266893 (-52)).
Proof. vm_compute. reflexivity. Qed.

Example where_le_lists_indices :
  Np.where_le (map of_Z [5; 1; 4; 2; 3]%Z) (of_Z 2) = [1; 3].
Proof. vm_compute. reflexivity. Qed.

(** Probabilities 1/4, 1/4, 1/2 and the samples 0, 1/4, 1/2, 3/4. *)
Example choice_inverts_the_distribution :
  Np.choice_indices
    [fdiv one (of_Z 4); fdiv one (of_Z 4); fdiv one (of_Z 2)]
    [zero; fdiv one (of_Z 4); fdiv one (of_Z 2); fdiv (of_Z 3) (of_Z 4)]
  = [0; 1; 2; 2].
Proof. vm_compute. reflexivity. Qed.

(** A resampling that succeeds: after a scan of minimum range 1 the weights
    are 2/3 and 1/3; the second particle is at or below the percentile and
    takes the position of the first (the sample 0.5 draws index 0 and a
    heading noise of 0). *)
Example resample_replaces_the_lighter_particle :
  let st := exec (@update_particles_with_laser Fixture.helpers
                    [of_Z 1; of_Z 4] []) Fixture.tracking_node in
  result resample_particles st = Returned tt /\
  map (fun q => (x q, y q, theta q)) (particle_cloud (exec resample_particles st))
  = [(of_Z 2, zero, zero); (of_Z 2, zero, zero)] /\
  map w (particle_cloud (exec resample_particles st)) = map w (particle_cloud st).
Proof. vm_compute. repeat split. Qed.

(* ===================================================================== *)
(** * Facts about binary64 arithmetic *)
(* ===================================================================== *)

(** ** Rounding keeps the sign *)

Lemma shr_1_nonneg mrs : (0 <= shr_m mrs)%Z -> (0 <= shr_m (shr_1 mrs))%Z.
Proof.
  destruct mrs as [m r s]; simpl.
  destruct m as [|p|p]; simpl; try lia; destruct p; simpl; lia.
Qed.

Lemma iter_shr_1_nonneg p : forall mrs,
  (0 <= shr_m mrs)%Z -> (0 <= shr_m (iter_pos shr_1 p mrs))%Z.
Proof.
  induction p; intros mrs H; simpl; auto using shr_1_nonneg.
Qed.

Lemma shr_nonneg mrs e n :
  (0 <= shr_m mrs)%Z -> (0 <= shr_m (fst (shr mrs e n)))%Z.
Proof.
  intros H; destruct n; simpl; auto using iter_shr_1_nonneg.
Qed.

Lemma shr_record_of_loc_m m l : shr_m (shr_record_of_loc m l) = m.
Proof. destruct l as [|[]]; reflexivity. Qed.

Lemma shr_fexp_nonneg m e l :
  (0 <= m)%Z -> (0 <= shr_m (fst (shr_fexp prec emax m e l)))%Z.
Proof.
  intros H; unfold shr_fexp; apply shr_nonneg.
  now rewrite shr_record_of_loc_m.
Qed.

Lemma round_nearest_even_nonneg m l :
  (0 <= m)%Z -> (0 <= round_nearest_even m l)%Z.
Proof.
  intros H; destruct l as [|[]]; simpl; try lia.
  destruct (Z.even m); lia.
Qed.

Lemma binary_round_aux_nonneg m e l :
  (0 <= m)%Z -> nonneg (binary_round_aux prec emax false m e l) = true.
Proof.
  intros H; unfold binary_round_aux.
  pose proof (shr_fexp_nonneg m e l H) as H1.
  destruct (shr_fexp prec emax m e l) as [mrs' e'] eqn:E1; simpl in H1.
  pose proof (round_nearest_even_nonneg _ (loc_of_shr_record mrs') H1) as H2.
  pose proof (shr_fexp_nonneg _ e' loc_Exact H2) as H3.
  destruct (shr_fexp prec emax _ e' loc_Exact) as [mrs'' e''] eqn:E2; simpl in H3.
  destruct (shr_m mrs'') as [|p|p];
    [reflexivity | destruct (e'' <=? emax - prec)%Z; reflexivity | lia].
Qed.

Lemma fadd_nonneg a b : nonneg a = true -> nonneg b = true -> nonneg (fadd a b) = true.
Proof.
  destruct a as [[]|[]| |[] ma ea], b as [[]|[]| |[] mb eb]; simpl; try discriminate; auto.
  intros _ _. unfold fadd, SFadd, binary_normalize, cond_Zopp. simpl Z.add.
  unfold binary_round.
  destruct (shl_align _ _ _) as [mz ez].
  apply binary_round_aux_nonneg; lia.
Qed.

Lemma fdiv_nonneg m e b : nonneg b = true -> nonneg (fdiv (S754_finite false m e) b) = true.
Proof.
  destruct b as [[]|[]| |[] mb eb]; simpl; try discriminate; auto.
  intros _. unfold fdiv, SFdiv. 
  destruct (SFdiv_core_binary _ _ _ _ _ _) as [[mz ez] lz] eqn:E.
  simpl. apply binary_round_aux_nonneg.
  unfold SFdiv_core_binary in E.
  remember (match (e - eb - _)%Z with Z0 => _ | Zpos _ => _ | Zneg _ => _ end) as m' in E.
  pose proof (Z.div_eucl_eq m' (Z.pos mb)) as Hd.
  pose proof (Z.mod_pos_bound m' (Z.pos mb)) as Hm.
  unfold Z.modulo in Hm.
  assert (0 <= m')%Z.
  { subst m'. destruct (e - eb - _)%Z; try lia. apply Z.shiftl_nonneg. lia. }
  destruct (Z.div_eucl m' (Z.pos mb)) as [q r]. inversion E; subst. nia.
Qed.

(** ** The order on floats that are numbers *)

Ltac order_cases :=
  repeat match goal with
         | |- context [Pos.compare_cont Eq ?a ?b] =>
             change (Pos.compare_cont Eq a b) with (Pos.compare a b)
         | H : context [Z.compare ?a ?b] |- _ => destruct (Z.compare_spec a b)
         | |- context [Z.compare ?a ?b] => destruct (Z.compare_spec a b)
         | H : context [Pos.compare ?a ?b] |- _ => destruct (Pos.compare_spec a b)
         | |- context [Pos.compare ?a ?b] => destruct (Pos.compare_spec a b)
         end.

Lemma fleb_total a b : isnan a = false -> isnan b = false ->
  fleb a b = false -> fltb b a = true.
Proof.
  unfold fleb, fltb, SFleb, SFltb.
  destruct a as [[]|[]| |[] ma ea], b as [[]|[]| |[] mb eb]; simpl; try congruence;
    intros _ _; order_cases; simpl; try congruence; try lia.
Qed.

Lemma fleb_fltb_trans a b c : fleb a b = true -> fltb b c = true -> fltb a c = true.
Proof.
  unfold fleb, fltb, SFleb, SFltb.
  destruct a as [[]|[]| |[] ma ea], b as [[]|[]| |[] mb eb], c as [[]|[]| |[] mc ec];
    simpl; try congruence;
    order_cases; simpl; try congruence; try lia.
Qed.

Lemma fltb_fleb a b : fltb a b = true -> fleb a b = true.
Proof.
  unfold fleb, fltb, SFleb, SFltb. destruct (SFcompare a b) as [[]|]; congruence.
Qed.

Lemma fleb_refl a : isnan a = false -> fleb a a = true.
Proof.
  unfold fleb, SFleb.
  destruct a as [[]|[]| |[] ma ea]; simpl; try congruence; intros _;
  rewrite ?compare_cont_Eq, Z.compare_refl, Pos.compare_refl; reflexivity.
Qed.


(** ** Not-a-number and infinity in sums and quotients *)

Lemma fadd_nan_r a : fadd a nan = nan.
Proof. destruct a as [[]|[]| |[] ma ea]; reflexivity. Qed.

Lemma fdiv_nan_r a : fdiv a nan = nan.
Proof. destruct a as [[]|[]| |[] ma ea]; reflexivity. Qed.

Lemma fadd_pinf_l b : nonneg b = true -> fadd pinf b = pinf.
Proof.
  destruct b as [[]|[]| |[] mb eb]; simpl; intros; try discriminate; reflexivity.
Qed.

Lemma fadd_pinf_r a : nonneg a = true -> fadd a pinf = pinf.
Proof.
  destruct a as [[]|[]| |[] ma ea]; simpl; intros; try discriminate; reflexivity.
Qed.

Lemma nonneg_not_nan a : nonneg a = true -> isnan a = false.
Proof. destruct a as [[]|[]| |[] ma ea]; simpl; congruence. Qed.

Lemma fdiv_pinf_r q : nonneg q = true -> fdiv q pinf = zero \/ fdiv q pinf = nan.
Proof.
  destruct q as [[]|[]| |[] mq eq]; simpl; intros; try discriminate;
    (left; reflexivity) || (right; reflexivity).
Qed.

Lemma fabs_nonneg_or_nan a : nonneg (fabs a) = true \/ fabs a = nan.
Proof.
  destruct a as [[]|[]| |[] ma ea]; (left; reflexivity) || (right; reflexivity).
Qed.

Lemma fold_fadd_nan l : fold_left fadd l nan = nan.
Proof. induction l as [|a l IH]; simpl; auto. Qed.

Lemma sum_nan_from l : forall acc,
  existsb isnan l = true -> fold_left fadd l acc = nan.
Proof.
  induction l as [|a l IH]; cbn [fold_left existsb]; intros acc H; [discriminate|].
  destruct (isnan a) eqn:Ea.
  - destruct a; try discriminate. fold nan. rewrite fadd_nan_r. apply fold_fadd_nan.
  - apply IH; exact H.
Qed.

Lemma fold_fadd_pinf l :
  Forall (fun a => nonneg a = true) l -> fold_left fadd l pinf = pinf.
Proof.
  induction 1 as [|a l Ha Hl IH]; cbn [fold_left]; auto.
  rewrite fadd_pinf_l by assumption. exact IH.
Qed.

Lemma sum_pinf_from l : forall acc,
  nonneg acc = true -> Forall (fun a => nonneg a = true) l -> In pinf l ->
  fold_left fadd l acc = pinf.
Proof.
  induction l as [|a l IH]; cbn [fold_left In]; intros acc Hacc Hl Hin; [contradiction|].
  inversion Hl as [|? ? Ha Hl']; subst.
  destruct Hin as [-> | Hin].
  - rewrite fadd_pinf_r by assumption. apply fold_fadd_pinf; assumption.
  - apply IH; auto using fadd_nonneg.
Qed.

Lemma np_sum_nan l : existsb isnan l = true -> Np.sum l = nan.
Proof. apply sum_nan_from. Qed.

Lemma np_sum_pinf l :
  Forall (fun a => nonneg a = true) l -> In pinf l -> Np.sum l = pinf.
Proof. intros; apply sum_pinf_from; auto. Qed.

(** ** Errors of the measurement update *)

Lemma laser_errors_nonneg rd ds :
  Forall (fun e => nonneg e = true) (laser_errors rd ds).
Proof.
  unfold laser_errors. rewrite map_map. apply Forall_forall.
  intros e He. apply in_map_iff in He as (d & <- & _).
  destruct (fabs_nonneg_or_nan (fsub d rd)) as [H | H].
  - rewrite (nonneg_not_nan _ H). exact H.
  - rewrite H. reflexivity.
Qed.

Lemma laser_errors_length rd ds : length (laser_errors rd ds) = length ds.
Proof. unfold laser_errors. now rewrite !length_map. Qed.

(* ===================================================================== *)
(** * Lists and the monad *)
(* ===================================================================== *)

Lemma nth_error_combine {A B} (l1 : list A) (l2 : list B) : forall i a b,
  nth_error l1 i = Some a -> nth_error l2 i = Some b ->
  nth_error (combine l1 l2) i = Some (a, b).
Proof.
  revert l2; induction l1 as [|a1 l1 IH]; intros [|b2 l2] [|i] a b; simpl;
    try discriminate; intros Ha Hb.
  - congruence.
  - apply IH; assumption.
Qed.

Lemma update_nth_length {A} (f : A -> A) (l : list A) : forall i,
  length (update_nth i f l) = length l.
Proof.
  induction l as [|a l IH]; intros [|i]; simpl; auto.
Qed.

Lemma nth_error_update_nth_other {A} (f : A -> A) (l : list A) : forall i j,
  i <> j -> nth_error (update_nth i f l) j = nth_error l j.
Proof.
  induction l as [|a l IH]; intros [|i] [|j] Hij; simpl; auto; congruence.
Qed.

Lemma nth_error_update_nth_same {A} (f : A -> A) (l : list A) : forall i,
  nth_error (update_nth i f l) i = option_map f (nth_error l i).
Proof.
  induction l as [|a l IH]; intros [|i]; simpl; auto.
Qed.

(** Unfolding the monad on a goal or in the context. *)
Ltac run_monad :=
  unfold exec, result, bind, gets, get, modify, lift, ret, raise in *;
  cbn [fst snd] in *.

(* ===================================================================== *)
(** * The measurement update *)
(* ===================================================================== *)

Section MeasurementUpdate.

Context {num : Numeric float} {hlp : Helpers float}.

Lemma particle_distances_map (cloud : list (Particle float)) :
  particle_distances cloud
  = map (fun q => get_closest_obstacle_distance (x q) (y q)) cloud.
Proof.
  unfold particle_distances.
  induction cloud as [|q cloud IH]; simpl; [reflexivity|].
  f_equal. exact IH.
Qed.

Lemma laser_errors_map rd (cloud : list (Particle float)) :
  laser_errors rd (particle_distances cloud) = map (error_of rd) cloud.
Proof.
  unfold laser_errors. rewrite particle_distances_map, !map_map. reflexivity.
Qed.

Lemma laser_weights_length es ws :
  laser_weights es = Some ws -> length ws = length es.
Proof.
  unfold laser_weights. destruct (nth_error es 0); [|discriminate].
  intros [= <-]. now rewrite !length_map.
Qed.

(** What the update does when the scan and the cloud are not empty. *)
Lemma laser_update_returns (st : Node) r th rd ws :
  Np.amin r = Some rd ->
  laser_weights (laser_errors rd (particle_distances (particle_cloud st))) = Some ws ->
  update_particles_with_laser r th st
  = (Returned tt,
     with_cloud (map store_weight (combine (particle_cloud st) ws)) st).
Proof.
  intros Hr Hw. unfold update_particles_with_laser. run_monad.
  rewrite Hr. cbn. rewrite Hw. reflexivity.
Qed.

(** When it raises, the attributes are as before. *)
Lemma laser_update_raises (st : Node) r th e :
  result (update_particles_with_laser r th) st = Raised e ->
  exec (update_particles_with_laser r th) st = st.
Proof.
  unfold update_particles_with_laser. run_monad.
  destruct (Np.amin r) as [rd|]; cbn; [|reflexivity].
  destruct (laser_weights _) as [ws|]; cbn; [discriminate|reflexivity].
Qed.

Lemma store_weight_no_nan pw : isnan (w (store_weight pw)) = false.
Proof.
  unfold store_weight. destruct (isnan (snd pw)) eqn:E; simpl; auto.
Qed.

(** C1.  In the measurement update the weight computed for particle [i] is
    [ratio_i / sum(ratio)] with [ratio_i = error_0 / error_i] and
    [error_i = |predicted_distance_i - observed_min_range|], an error that is
    not a number being replaced by 5; that weight is what the particle
    stores (0 when the quotient is not a number), and a particle whose
    predicted distance is unknown has error exactly 5. *)
Theorem laser_weight_formula (st : Node) (r th : list float) (rd : float)
  (i : nat) (p : Particle float) :
  Np.amin r = Some rd ->
  nth_error (particle_cloud st) i = Some p ->
  exists p0,
    nth_error (particle_cloud st) 0 = Some p0 /\
    let ratio := fun q => fdiv (error_of rd p0) (error_of rd q) in
    let w_i := fdiv (ratio p) (Np.sum (map ratio (particle_cloud st))) in
    result (update_particles_with_laser r th) st = Returned tt /\
    nth_error (particle_cloud (exec (update_particles_with_laser r th) st)) i
    = Some (set_w (if isnan w_i then zero else w_i) p) /\
    (isnan (get_closest_obstacle_distance (x p) (y p)) = true ->
     error_of rd p = five).
Proof.
  intros Hr Hi.
  destruct (particle_cloud st) as [|p0 cloud] eqn:Hc.
  { destruct i; discriminate. }
  exists p0. split; [reflexivity|]. cbv zeta.
  set (ratio := fun q => fdiv (error_of rd p0) (error_of rd q)).
  assert (Hw : laser_weights (laser_errors rd (particle_distances (particle_cloud st)))
               = Some (map (fun q => fdiv (ratio q) (Np.sum (map ratio (p0 :: cloud))))
                           (p0 :: cloud))).
  { rewrite Hc, laser_errors_map. unfold laser_weights. cbn [map nth_error].
    rewrite !map_map. reflexivity. }
  unfold result, exec. rewrite (laser_update_returns st r th rd _ Hr Hw).
  cbn [fst snd]. split; [reflexivity|]. split.
  - unfold with_cloud; cbn [particle_cloud]. rewrite Hc, nth_error_map.
    erewrite nth_error_combine; [| exact Hi | rewrite nth_error_map, Hi; reflexivity].
    cbn [option_map]. unfold store_weight; cbn [fst snd].
    destruct (isnan _); reflexivity.
  - intros Hn. unfold error_of.
    destruct (get_closest_obstacle_distance (x p) (y p)); try discriminate.
    reflexivity.
Qed.

(** C2.  After a measurement update no particle carries a weight that is not
    a number: where the computed weight is not a number the particle stores
    exactly 0, elsewhere it stores the computed weight; position and heading
    are as before. *)
Theorem laser_weights_never_nan (st : Node) (r th : list float) :
  result (update_particles_with_laser r th) st = Returned tt ->
  let st' := exec (update_particles_with_laser r th) st in
  Forall (fun q => isnan (w q) = false) (particle_cloud st') /\
  exists rd ws,
    Np.amin r = Some rd /\
    laser_weights (laser_errors rd (particle_distances (particle_cloud st))) = Some ws /\
    length ws = length (particle_cloud st) /\
    forall i p w_i,
      nth_error (particle_cloud st) i = Some p ->
      nth_error ws i = Some w_i ->
      nth_error (particle_cloud st') i
      = Some (set_w (if isnan w_i then zero else w_i) p).
Proof.
  intros Hret. cbv zeta.
  destruct (Np.amin r) as [rd|] eqn:Hr.
  2:{ unfold update_particles_with_laser in Hret. run_monad.
      rewrite Hr in Hret. discriminate. }
  destruct (laser_weights (laser_errors rd (particle_distances (particle_cloud st))))
    as [ws|] eqn:Hw.
  2:{ unfold update_particles_with_laser in Hret. run_monad.
      rewrite Hr in Hret. cbn in Hret. rewrite Hw in Hret. discriminate. }
  clear Hret. unfold exec. rewrite (laser_update_returns st r th rd _ Hr Hw).
  cbn [fst snd]. unfold with_cloud; cbn [particle_cloud]. split.
  - apply Forall_forall. intros q Hq. apply in_map_iff in Hq as (pw & <- & _).
    apply store_weight_no_nan.
  - exists rd, ws. split; [reflexivity|]. split; [exact Hw|]. split.
    + rewrite (laser_weights_length _ _ Hw), laser_errors_length,
        particle_distances_map, length_map. reflexivity.
    + intros i p w_i Hp Hwi. rewrite nth_error_map.
      rewrite (nth_error_combine _ _ _ _ _ Hp Hwi). cbn [option_map].
      unfold store_weight; cbn [fst snd]. destruct (isnan w_i); reflexivity.
Qed.

Lemma store_weight_zero pw :
  snd pw = zero \/ snd pw = nan -> w (store_weight pw) = zero.
Proof.
  unfold store_weight. intros [-> | ->]; reflexivity.
Qed.

(** With one error equal to zero, every quotient [ratio / sum(ratio)] is 0
    or not a number. *)
Lemma zero_error_weights (es ws : list float) (i : nat) (e : float) :
  Forall (fun a => nonneg a = true) es ->
  nth_error es i = Some e -> is_zero e = true ->
  laser_weights es = Some ws ->
  Forall (fun w_i => w_i = zero \/ w_i = nan) ws.
Proof.
  intros Hes Hi Hz. unfold laser_weights.
  destruct es as [|e0 es']; [destruct i; discriminate|]. cbn [nth_error].
  intros [= <-].
  set (ratios := map (fun a => fdiv e0 a) (e0 :: es')).
  change (Forall (fun w_i => w_i = zero \/ w_i = nan)
                 (map (fun q => fdiv q (Np.sum ratios)) ratios)).
  assert (He0 : nonneg e0 = true) by (inversion Hes; assumption).
  assert (Hin : In e (e0 :: es')) by (eapply nth_error_In; exact Hi).
  assert (He : e = zero).
  { rewrite Forall_forall in Hes. specialize (Hes e Hin).
    destruct e as [[]| | |]; simpl in *; try discriminate; reflexivity. }
  subst e.
  assert (HS : Np.sum ratios = nan
               \/ (Np.sum ratios = pinf /\ Forall (fun a => nonneg a = true) ratios)).
  { destruct e0 as [[]|[]| |[] m0 x0]; try discriminate.
    - left. apply np_sum_nan. reflexivity.
    - left. apply np_sum_nan. reflexivity.
    - right.
      assert (Hr : Forall (fun a => nonneg a = true) ratios).
      { apply Forall_forall. intros q Hq. apply in_map_iff in Hq as (a & <- & Ha).
        apply fdiv_nonneg. rewrite Forall_forall in Hes. apply Hes; exact Ha. }
      split; [|exact Hr]. apply np_sum_pinf; [exact Hr|].
      apply in_map_iff. exists zero. split; [reflexivity|exact Hin]. }
  apply Forall_forall. intros w_i Hw. apply in_map_iff in Hw as (q & <- & Hq).
  destruct HS as [-> | [-> Hr]].
  - right. apply fdiv_nan_r.
  - apply fdiv_pinf_r. rewrite Forall_forall in Hr. apply Hr; exact Hq.
Qed.

(** C10.  When the error of some particle is exactly 0 (its predicted
    distance equals the observed minimum range), the measurement update
    returns and leaves every particle with weight exactly 0. *)
Theorem zero_error_zeroes_all_weights (st : Node) (r th : list float)
  (rd : float) (i : nat) (p : Particle float) :
  Np.amin r = Some rd ->
  nth_error (particle_cloud st) i = Some p ->
  is_zero (error_of rd p) = true ->
  result (update_particles_with_laser r th) st = Returned tt /\
  Forall (fun q => w q = zero)
         (particle_cloud (exec (update_particles_with_laser r th) st)).
Proof.
  intros Hr Hi Hz.
  assert (Hne : nth_error (laser_errors rd (particle_distances (particle_cloud st))) i
                = Some (error_of rd p)).
  { rewrite laser_errors_map, nth_error_map, Hi. reflexivity. }
  destruct (laser_weights (laser_errors rd (particle_distances (particle_cloud st))))
    as [ws|] eqn:Hw.
  2:{ unfold laser_weights in Hw.
      destruct (laser_errors rd (particle_distances (particle_cloud st)));
        [destruct i|]; discriminate. }
  unfold result, exec. rewrite (laser_update_returns st r th rd ws Hr Hw).
  cbn [fst snd]. split; [reflexivity|].
  unfold with_cloud; cbn [particle_cloud].
  pose proof (zero_error_weights _ _ _ _ (laser_errors_nonneg rd _) Hne Hz Hw) as Hall.
  apply Forall_forall. intros q Hq. apply in_map_iff in Hq as ([q0 w_i] & <- & Hin).
  apply store_weight_zero. cbn [snd].
  rewrite Forall_forall in Hall. apply Hall.
  eapply in_combine_r; exact Hin.
Qed.

End MeasurementUpdate.

(* ===================================================================== *)
(** * The pose estimate and the initialization *)
(* ===================================================================== *)

(** The scan of [np.argmax], with [pre] the elements already seen: it ends
    on the first position of a greatest element. *)
Lemma argmax_from_spec (l : list float) : forall (pre : list float) mp best,
  nth_error pre best = Some mp ->
  Forall (fun a => fleb a mp = true) pre ->
  (forall j a, j < best -> nth_error pre j = Some a -> fltb a mp = true) ->
  Forall (fun a => isnan a = false) (pre ++ l) ->
  exists m,
    nth_error (pre ++ l) (Np.argmax_from l (length pre) mp best) = Some m /\
    Forall (fun a => fleb a m = true) (pre ++ l) /\
    (forall j a, j < Np.argmax_from l (length pre) mp best ->
                 nth_error (pre ++ l) j = Some a -> fltb a m = true).
Proof.
  induction l as [|a l IH]; intros pre mp best Hb Hle Hlt Hnn.
  - rewrite app_nil_r in *. exists mp. cbn [Np.argmax_from]. auto.
  - cbn [Np.argmax_from].
    assert (Hbl : best < length pre) by (apply nth_error_Some; congruence).
    assert (Ha : isnan a = false).
    { rewrite Forall_forall in Hnn. apply Hnn, in_or_app. right. left. reflexivity. }
    assert (Hmp : isnan mp = false).
    { rewrite Forall_forall in Hnn. apply Hnn, in_or_app. left.
      eapply nth_error_In; exact Hb. }
    replace (pre ++ a :: l) with ((pre ++ [a]) ++ l) in *
      by (rewrite <- app_assoc; reflexivity).
    replace (S (length pre)) with (length (pre ++ [a]))
      by (rewrite length_app; cbn; lia).
    destruct (fleb a mp) eqn:Eam.
    + apply IH; auto.
      * rewrite nth_error_app1 by assumption. exact Hb.
      * apply Forall_app. split; [exact Hle|]. constructor; [exact Eam|constructor].
      * intros j b Hj Hjb. apply (Hlt j b Hj).
        rewrite nth_error_app1 in Hjb by lia. exact Hjb.
    + rewrite Ha.
      assert (Hgt : fltb mp a = true) by (apply fleb_total; assumption).
      replace (length pre) with (length pre + 0) at 2 by lia.
      apply IH; auto.
      * replace (length pre + 0) with (length pre) by lia.
        rewrite nth_error_app2 by lia. rewrite Nat.sub_diag. reflexivity.
      * apply Forall_app. split.
        -- rewrite Forall_forall in *. intros b Hbin.
           apply fltb_fleb. eapply fleb_fltb_trans; [apply Hle; exact Hbin|exact Hgt].
        -- constructor; [apply fleb_refl; exact Ha|constructor].
      * intros j b Hj Hjb. rewrite nth_error_app1 in Hjb by lia.
        eapply fleb_fltb_trans; [|exact Hgt].
        rewrite Forall_forall in Hle. apply Hle. eapply nth_error_In; exact Hjb.
Qed.

Lemma argmax_spec (l : list float) :
  l <> [] -> Forall (fun a => isnan a = false) l ->
  exists k m,
    Np.argmax l = Some k /\ nth_error l k = Some m /\
    Forall (fun a => fleb a m = true) l /\
    (forall j a, j < k -> nth_error l j = Some a -> fltb a m = true).
Proof.
  destruct l as [|a l]; [congruence|]. intros _ Hnn.
  assert (Ha : isnan a = false) by (inversion Hnn; assumption).
  cbn [Np.argmax]. rewrite Ha.
  destruct (argmax_from_spec l [a] a 0) as (m & H1 & H2 & H3); auto.
  - constructor; [apply fleb_refl; exact Ha|constructor].
  - intros j b Hj; lia.
  - exists (Np.argmax_from l 1 a 0), m. auto.
Qed.

(** Whatever the weights, the scan ends inside the array. *)
Lemma argmax_from_range (l : list float) : forall i mp best,
  best < i -> Np.argmax_from l i mp best < i + length l.
Proof.
  induction l as [|a l IH]; intros i mp best Hb; cbn [Np.argmax_from length].
  - lia.
  - destruct (fleb a mp).
    + specialize (IH (S i) mp best). lia.
    + destruct (isnan a); [lia|]. specialize (IH (S i) a i). lia.
Qed.

Lemma argmax_in_range (l : list float) :
  l <> [] -> exists k, Np.argmax l = Some k /\ k < length l.
Proof.
  destruct l as [|a l]; [congruence|]. intros _. cbn [Np.argmax length].
  eexists. split; [reflexivity|].
  destruct (isnan a); [lia|].
  pose proof (argmax_from_range l 1 a 0). lia.
Qed.

(** On weights that all compare [<=] to the first one, the scan stays at
    the first position. *)
Lemma argmax_from_stays (l : list float) : forall i mp best,
  Forall (fun a => fleb a mp = true) l -> Np.argmax_from l i mp best = best.
Proof.
  induction l as [|a l IH]; intros i mp best H; cbn [Np.argmax_from]; auto.
  inversion H as [|? ? Ha Hl]; subst. rewrite Ha. apply IH; exact Hl.
Qed.

Section PoseEstimate.

Context {num : Numeric float} {hlp : Helpers float}.

Lemma update_robot_pose_returns (st : Node) k p :
  Np.argmax (map w (particle_cloud st)) = Some k ->
  nth_error (particle_cloud st) k = Some p ->
  result update_robot_pose st = Returned tt /\
  robot_pose (exec update_robot_pose st) = Some (as_pose p) /\
  particle_cloud (exec update_robot_pose st) = particle_cloud st.
Proof.
  intros Hk Hp. unfold update_robot_pose. run_monad.
  rewrite Hk. cbn. rewrite Hp. cbn.
  destruct (odom_pose st); cbn; auto.
Qed.

(** C7.  On a population that is not empty the pose estimator returns, and
    the pose it stores is that of a particle of the population; the weights
    being numbers, that particle's weight is greatest and it is the first
    such in population order: every weight is [<=] it and every earlier
    weight is [<] it. *)
Theorem pose_estimate_is_first_heaviest (st : Node) :
  particle_cloud st <> [] ->
  exists k p,
    nth_error (particle_cloud st) k = Some p /\
    result update_robot_pose st = Returned tt /\
    robot_pose (exec update_robot_pose st) = Some (as_pose p) /\
    (Forall (fun q => isnan (w q) = false) (particle_cloud st) ->
     (forall q, In q (particle_cloud st) -> fleb (w q) (w p) = true) /\
     (forall j q, j < k -> nth_error (particle_cloud st) j = Some q ->
                  fltb (w q) (w p) = true)).
Proof.
  intros Hne.
  destruct (argmax_in_range (map w (particle_cloud st))) as (k & Hk & Hlt).
  { destruct (particle_cloud st); [congruence|discriminate]. }
  rewrite length_map in Hlt.
  destruct (nth_error (particle_cloud st) k) as [p|] eqn:Hp.
  2:{ apply nth_error_None in Hp. lia. }
  destruct (update_robot_pose_returns st k p Hk Hp) as (H1 & H2 & _).
  exists k, p. split; [exact Hp|]. split; [exact H1|]. split; [exact H2|].
  intros Hnn.
  destruct (argmax_spec (map w (particle_cloud st))) as (k' & m & Hk' & Hm & Hle & Hbefore).
  - destruct (particle_cloud st); [congruence|discriminate].
  - apply Forall_forall. intros a Ha. apply in_map_iff in Ha as (q & <- & Hq).
    rewrite Forall_forall in Hnn. apply Hnn; exact Hq.
  - assert (k' = k) by congruence. subst k'.
    rewrite nth_error_map, Hp in Hm. injection Hm as <-. split.
    + intros q Hq. rewrite Forall_forall in Hle. apply Hle, in_map; exact Hq.
    + intros j q Hj Hq. apply (Hbefore j (w q) Hj).
      rewrite nth_error_map, Hq. reflexivity.
Qed.

End PoseEstimate.

Section Initialization.

Context {num : Numeric float} {hlp : Helpers float}.

(** Every particle the seeding loop appends has weight 1. *)
Lemma seeded_weights (f : nat -> float) (x0 y0 : float) (l : list nat) :
  Forall (fun a => fleb a one = true)
         (map w (map (fun i => mkParticle x0 y0 (f i) one) l)).
Proof.
  apply Forall_forall. intros a Ha.
  apply in_map_iff in Ha as (q & <- & Hq).
  apply in_map_iff in Hq as (i & <- & _). reflexivity.
Qed.

(** C6.  Initialization around the mean pose [(x0, y0, theta0)] with
    [N > 0] particles replaces the population by exactly [N] particles, the
    one at index [i] being at [(x0, y0)] with heading
    [theta0 + (2 pi / N) * i] and weight 1; it then recomputes the pose
    estimate on that population, which is the pose of its first particle. *)
Theorem initial_cloud_is_heading_fan (st : Node) (stamp : nat)
  (x0 y0 theta0 : float) :
  0 < n_particles st ->
  let n := n_particles st in
  let delta_theta := fdiv (fmul (of_Z 2) pi) (of_nat n) in
  let seeded := fun i =>
    mkParticle x0 y0 (fadd theta0 (fmul delta_theta (of_nat i))) one in
  let run := initialize_particle_cloud stamp (Some (x0, y0, theta0)) in
  result run st = Returned tt /\
  length (particle_cloud (exec run st)) = n /\
  (forall i, i < n -> nth_error (particle_cloud (exec run st)) i = Some (seeded i)) /\
  exec run st = exec update_robot_pose (with_cloud (map seeded (seq 0 n)) st) /\
  robot_pose (exec run st) = Some (as_pose (seeded 0)).
Proof.
  intros Hn. cbv zeta.
  set (seeded := fun i => mkParticle x0 y0
         (fadd theta0 (fmul (fdiv (fmul (of_Z 2) pi) (of_nat (n_particles st)))
                            (of_nat i))) one).
  set (st1 := with_cloud (map seeded (seq 0 (n_particles st))) st).
  assert (Hrun : initialize_particle_cloud stamp (Some (x0, y0, theta0)) st
                 = update_robot_pose st1).
  { unfold initialize_particle_cloud. run_monad. cbn [n_particles with_cloud].
    destruct (n_particles st =? 0) eqn:E; [apply Nat.eqb_eq in E; lia|].
    reflexivity. }
  assert (Hk : Np.argmax (map w (particle_cloud st1)) = Some 0).
  { unfold st1, with_cloud; cbn [particle_cloud].
    destruct (n_particles st) as [|n'] eqn:En; [lia|].
    cbn [seq map Np.argmax]. cbn [w seeded isnan one].
    rewrite argmax_from_stays; [reflexivity|]. apply seeded_weights. }
  assert (Hp : nth_error (particle_cloud st1) 0 = Some (seeded 0)).
  { unfold st1, with_cloud; cbn [particle_cloud].
    destruct (n_particles st) as [|n'] eqn:En; [lia|]. reflexivity. }
  destruct (update_robot_pose_returns st1 0 (seeded 0) Hk Hp) as (H1 & H2 & H3).
  unfold result, exec in *. rewrite Hrun.
  split; [exact H1|]. split; [|split; [|split]].
  - rewrite H3. unfold st1, with_cloud; cbn [particle_cloud].
    now rewrite length_map, length_seq.
  - intros i Hi. rewrite H3. unfold st1, with_cloud; cbn [particle_cloud].
    rewrite nth_error_map, nth_error_seq.
    destruct (Nat.ltb_spec i (n_particles st)); [reflexivity|lia].
  - reflexivity.
  - exact H2.
Qed.

End Initialization.

(* ===================================================================== *)
(** * Methods that keep a relation *)
(* ===================================================================== *)

Section Keeps.

Context {S : Type} (R : S -> S -> Prop).
Hypothesis R_refl : forall s, R s s.
Hypothesis R_trans : forall s1 s2 s3, R s1 s2 -> R s2 s3 -> R s1 s3.

Lemma keeps_ret {A} (a : A) : keeps R (ret a).
Proof. intros s. apply R_refl. Qed.

Lemma keeps_raise {A} (e : Exn) : keeps R (@raise S A e).
Proof. intros s. apply R_refl. Qed.

Lemma keeps_gets {A} (f : S -> A) : keeps R (gets f).
Proof. intros s. apply R_refl. Qed.

Lemma keeps_get : keeps R (@get S).
Proof. intros s. apply R_refl. Qed.

Lemma keeps_lift {A} (e : Exn) (o : option A) : keeps R (lift e o).
Proof. destruct o; intros s; apply R_refl. Qed.

Lemma keeps_modify (f : S -> S) : (forall s, R s (f s)) -> keeps R (modify f).
Proof. intros H s. apply H. Qed.

Lemma keeps_bind {A B} (c : M S A) (k : A -> M S B) :
  keeps R c -> (forall a, keeps R (k a)) -> keeps R (bind c k).
Proof.
  intros Hc Hk s. specialize (Hc s). unfold exec, bind in *.
  destruct (c s) as [[a|e] s1]; cbn [snd] in *.
  - eapply R_trans; [exact Hc|]. apply (Hk a s1).
  - exact Hc.
Qed.

Lemma keeps_for_each {A} (body : A -> M S unit) (l : list A) :
  (forall a, In a l -> keeps R (body a)) -> keeps R (for_each body l).
Proof.
  induction l as [|a l IH]; intros H; cbn [for_each].
  - apply keeps_ret.
  - apply keeps_bind.
    + apply H. left. reflexivity.
    + intros _. apply IH. intros b Hb. apply H. right. exact Hb.
Qed.

End Keeps.

Lemma same_size_refl {F} (s : ParticleFilter F) : same_size s s.
Proof. reflexivity. Qed.

Lemma same_size_trans {F} (s1 s2 s3 : ParticleFilter F) :
  same_size s1 s2 -> same_size s2 s3 -> same_size s1 s3.
Proof. unfold same_size. congruence. Qed.

Lemma frame_refl {F} L (s : ParticleFilter F) : frame L s s.
Proof. repeat split. Qed.

Lemma frame_trans {F} L (s1 s2 s3 : ParticleFilter F) :
  frame L s1 s2 -> frame L s2 s3 -> frame L s1 s3.
Proof.
  intros (A1 & B1 & C1) (A2 & B2 & C2). repeat split.
  - congruence.
  - intros j. rewrite B2. apply B1.
  - intros j Hj. rewrite C2 by exact Hj. apply C1; exact Hj.
Qed.

(* ===================================================================== *)
(** * Resampling *)
(* ===================================================================== *)

Section Resampling.

Context {num : Numeric float} {hlp : Helpers float}.

(** One step of a proof that a method keeps the frame of [L]. *)
Ltac frame_step L :=
  first
    [ apply (keeps_bind _ (frame_trans L)); [| intros ?]
    | apply (keeps_gets _ (frame_refl L))
    | apply (keeps_get _ (frame_refl L))
    | apply (keeps_lift _ (frame_refl L))
    | apply (keeps_ret _ (frame_refl L))
    | apply (keeps_raise _ (frame_refl L)) ].

Lemma particle_at_frame L i : keeps (frame L) (particle_at i).
Proof. unfold particle_at. repeat frame_step L. Qed.

Lemma set_particle_frame L i (f : Particle float -> Particle float) :
  In i L -> (forall p, w (f p) = w p) -> keeps (frame L) (set_particle i f).
Proof.
  intros Hi Hf. unfold set_particle.
  frame_step L; [apply particle_at_frame|].
  apply keeps_modify. intros s. unfold with_cloud, frame; cbn [particle_cloud].
  split; [apply update_nth_length|]. split.
  - intros j. destruct (Nat.eq_dec i j) as [<- | Hij].
    + rewrite nth_error_update_nth_same.
      destruct (nth_error (particle_cloud s) i); cbn [option_map]; [|reflexivity].
      now rewrite Hf.
    + now rewrite nth_error_update_nth_other.
  - intros j Hj. apply nth_error_update_nth_other. intros ->. contradiction.
Qed.

Lemma random_sample_frame L : keeps (frame L) random_sample.
Proof.
  unfold random_sample. frame_step L; [frame_step L|].
  frame_step L; [|frame_step L].
  apply keeps_modify. intros s. repeat split.
Qed.

Lemma random_uniform_frame L low high : keeps (frame L) (random_uniform low high).
Proof.
  unfold random_uniform. frame_step L; [apply random_sample_frame|frame_step L].
Qed.

Lemma random_samples_frame L size : keeps (frame L) (random_samples size).
Proof.
  induction size as [|size IH]; cbn [random_samples].
  - frame_step L.
  - frame_step L; [apply random_sample_frame|].
    frame_step L; [exact IH|frame_step L].
Qed.

Lemma random_choice_frame L pop_size size p :
  keeps (frame L) (random_choice pop_size size p).
Proof.
  unfold random_choice. destruct (Np.choice_rejects pop_size size p).
  - frame_step L.
  - frame_step L; [apply random_samples_frame|frame_step L].
Qed.

Lemma replace_particle_frame L pair :
  In (fst pair) L -> keeps (frame L) (replace_particle pair).
Proof.
  destruct pair as [i_replace i_new]. cbn [fst]. intros Hi.
  unfold replace_particle.
  frame_step L; [apply particle_at_frame|].
  frame_step L; [apply set_particle_frame; [exact Hi|reflexivity]|].
  frame_step L; [apply particle_at_frame|].
  frame_step L; [apply set_particle_frame; [exact Hi|reflexivity]|].
  frame_step L; [apply particle_at_frame|].
  frame_step L; [apply random_uniform_frame|].
  apply set_particle_frame; [exact Hi|reflexivity].
Qed.

(** The indices [resample_particles] selects: the particles whose weight is
    at most the 20th percentile (none when the percentile raises). *)
Lemma resample_frame (st : Node) :
  frame (match Np.percentile (map w (particle_cloud st)) (of_Z 20) with
         | Some t => Np.where_le (map w (particle_cloud st)) t
         | None => []
         end) st (exec resample_particles st).
Proof.
  unfold resample_particles, exec, bind, gets. cbn [fst snd].
  destruct (Np.percentile (map w (particle_cloud st)) (of_Z 20)) as [t|];
    cbn [lift ret raise fst snd]; [|apply frame_refl].
  set (L := Np.where_le (map w (particle_cloud st)) t).
  pose proof (random_choice_frame L (length (map w (particle_cloud st)))
                (length L) (map w (particle_cloud st)) st) as H1.
  unfold exec in H1.
  destruct (random_choice _ _ _ st) as [[locs|e] s1]; cbn [snd] in *; [|exact H1].
  eapply frame_trans; [exact H1|].
  apply (keeps_for_each _ (frame_refl L) (frame_trans L)).
  intros pair Hp. apply replace_particle_frame.
  destruct pair as [a b]. eapply in_combine_l; exact Hp.
Qed.

(** C9.  Resampling changes no weight, and a particle outside the selected
    set [L] (the indices whose weight is at most the 20th percentile) is
    left as it was in [x], [y], [theta] and [w]. *)
Theorem resampling_frame (st : Node) :
  let cloud := particle_cloud st in
  let cloud' := particle_cloud (exec resample_particles st) in
  (forall i, option_map w (nth_error cloud' i) = option_map w (nth_error cloud i)) /\
  (forall t i,
     Np.percentile (map w cloud) (of_Z 20) = Some t ->
     ~ In i (Np.where_le (map w cloud) t) ->
     nth_error cloud' i = nth_error cloud i).
Proof.
  cbv zeta. destruct (resample_frame st) as (_ & Hw & Hout). split.
  - exact Hw.
  - intros t i Ht Hi. apply Hout. rewrite Ht. exact Hi.
Qed.

End Resampling.

(* ===================================================================== *)
(** * The size of the population *)
(* ===================================================================== *)

Lemma odom_same_size {F} {num : Numeric F} {hlp : Helpers F} :
  keeps same_size (@update_particles_with_odom F num hlp).
Proof.
  intros s. unfold update_particles_with_odom, exec, bind, gets, lift.
  cbn [fst snd].
  destruct (odom_pose s) as [pose|]; cbn; [|reflexivity].
  destruct (current_odom_xy_theta s) as [current|]; cbn; [|reflexivity].
  destruct (np_linalg_inv (create_pose current)) as [inverse|]; cbn; [|reflexivity].
  unfold same_size. cbn. apply length_map.
Qed.

Section PopulationSize.

Context {num : Numeric float} {hlp : Helpers float}.

Lemma laser_same_size r th : keeps same_size (update_particles_with_laser r th).
Proof.
  intros s. unfold same_size, exec.
  destruct (Np.amin r) as [rd|] eqn:Hr.
  2:{ unfold update_particles_with_laser. run_monad. rewrite Hr. reflexivity. }
  destruct (laser_weights (laser_errors rd (particle_distances (particle_cloud s))))
    as [ws|] eqn:Hw.
  2:{ unfold update_particles_with_laser. run_monad. rewrite Hr. cbn.
      rewrite Hw. reflexivity. }
  rewrite (laser_update_returns s r th rd ws Hr Hw). cbn.
  rewrite length_map, length_combine, (laser_weights_length _ _ Hw),
    laser_errors_length, particle_distances_map, length_map.
  apply Nat.min_id.
Qed.

Lemma pose_same_size : keeps same_size update_robot_pose.
Proof.
  intros s. unfold same_size, update_robot_pose. run_monad.
  destruct (Np.argmax _) as [k|]; cbn; [|reflexivity].
  destruct (nth_error _ k) as [p|]; cbn; [|reflexivity].
  destruct (odom_pose s); reflexivity.
Qed.

Lemma resample_same_size : keeps same_size resample_particles.
Proof.
  intros s. destruct (resample_frame s) as (H & _). exact H.
Qed.

(** C8.  The population keeps its size across the motion update, the
    measurement update, the pose estimate and the resampling (whatever the
    inputs, and also when a step raises), hence across a whole filter
    update. *)
Theorem population_size_is_constant (st : Node) (r th : list float) :
  length (particle_cloud (exec update_particles_with_odom st))
  = length (particle_cloud st) /\
  length (particle_cloud (exec (update_particles_with_laser r th) st))
  = length (particle_cloud st) /\
  length (particle_cloud (exec update_robot_pose st))
  = length (particle_cloud st) /\
  length (particle_cloud (exec resample_particles st))
  = length (particle_cloud st) /\
  length (particle_cloud (exec (filter_update r th) st))
  = length (particle_cloud st).
Proof.
  split; [apply odom_same_size|].
  split; [apply laser_same_size|].
  split; [apply pose_same_size|].
  split; [apply resample_same_size|].
  unfold filter_update.
  apply (keeps_bind _ same_size_trans); [apply odom_same_size|intros _].
  apply (keeps_bind _ same_size_trans); [apply laser_same_size|intros _].
  apply (keeps_bind _ same_size_trans); [apply pose_same_size|intros _].
  apply resample_same_size.
Qed.

End PopulationSize.

(* ===================================================================== *)
(** * The update trigger *)
(* ===================================================================== *)




Section Trigger.

Context {num : Numeric float} {hlp : Helpers float}.


End Trigger.

(* ===================================================================== *)
(** * Resampling weights that do not sum to 1 *)
(* ===================================================================== *)

Section Unnormalised.

Context {num : Numeric float} {hlp : Helpers float}.

(** [np.random.choice] refuses probabilities whose sum is further than its
    tolerance from 1, so [resample_particles] raises before it replaces
    anything. *)
Lemma resample_needs_normalised_weights (st : Node) (t : float) :
  Np.percentile (map w (particle_cloud st)) (of_Z 20) = Some t ->
  fgtb (fabs (fsub (Np.kahan_sum (map w (particle_cloud st))) one)) Np.atol = true ->
  resample_particles st = (Raised ValueError, st).
Proof.
  intros Ht Hsum. unfold resample_particles, bind, gets, lift, ret.
  rewrite Ht. unfold random_choice, Np.choice_rejects.
  rewrite Hsum, !orb_true_r. reflexivity.
Qed.

End Unnormalised.

(** The population the measurement update leaves when the first of two
    particles predicts the observed range exactly (predicted distances 2 and
    3, observed minimum 2): both weights are 0. *)
Lemma zero_weights_after_exact_match :
  map w (particle_cloud
           (exec (@update_particles_with_laser Fixture.helpers
                    [of_Z 2; of_Z 4] []) Fixture.tracking_node))
  = [zero; zero].
Proof. vm_compute. reflexivity. Qed.

(** C4, on that population: its weights are not negative and do not sum to
    1, and [resample_particles] raises [ValueError] instead of completing;
    the population is left as it was. *)
Theorem resample_raises_on_zero_weights :
  let st := exec (@update_particles_with_laser Fixture.helpers
                    [of_Z 2; of_Z 4] []) Fixture.tracking_node in
  forallb (fun a => negb (fltb a zero)) (map w (particle_cloud st)) = true /\
  SFeqb (Np.kahan_sum (map w (particle_cloud st))) one = false /\
  resample_particles st = (Raised ValueError, st).
Proof. vm_compute. repeat split. Qed.

(** The same through [run_loop]: the robot moved by 1 along x, the scan's
    minimum range is 3, and the first particle (moved to distance 3)
    matches it; the loop raises before it publishes. *)
Lemma run_loop_raises_on_exact_match :
  result (@run_loop Fixture.numeric Fixture.helpers
            (Some (mkPose (one, zero, zero) (zero, zero, zero, one))) false
            [of_Z 3; of_Z 5] [])
         Fixture.tracking_node
  = Raised ValueError.
Proof. vm_compute. reflexivity. Qed.

(* ===================================================================== *)
(** * The motion update when the delta matrix is the identity *)
(* ===================================================================== *)

(** Multiplying a finite double by 1.0 is exact. *)
Lemma fmul_one_r s m e :
  bounded prec emax m e = true ->
  fmul (S754_finite s m e) one = S754_finite s m e.
Proof.
  intros Hb. unfold bounded in Hb. apply andb_true_iff in Hb as [Hc He].
  unfold canonical_mantissa in Hc. apply Z.eqb_eq in Hc. apply Z.leb_le in He.
  unfold fmul, one, of_Z. cbn [binary_normalize].
  change (binary_round prec emax false 1 0)
    with (S754_finite false 4503599627370496 (-52)).
  cbn [SFmul]. rewrite xorb_false_r, Pos.mul_comm.
  cbn [Pos.mul].
  assert (H1 : shr_fexp prec emax
                 (Z.pos (Pos.iter xO m 52)) (e + -52) loc_Exact
               = (Build_shr_record (Z.pos m) false false, e)).
  { unfold shr_fexp.
    assert (Hn : (fexp prec emax (Zdigits2 (Z.pos (Pos.iter xO m 52)) + (e + -52))
                  - (e + -52) = 52)%Z).
    { cbn [Pos.iter Zdigits2 digits2_pos].
      match goal with
      | |- (fexp _ _ ?a - _ = _)%Z =>
          replace a with (Z.pos (digits2_pos m) + e)%Z by lia
      end.
      rewrite Hc. lia. }
    rewrite Hn. cbn [shr shr_record_of_loc Pos.iter iter_pos shr_1 orb].
    f_equal. lia. }
  assert (H2 : shr_fexp prec emax (Z.pos m) e loc_Exact
               = (Build_shr_record (Z.pos m) false false, e)).
  { unfold shr_fexp. cbn [Zdigits2]. rewrite Hc, Z.sub_diag. reflexivity. }
  unfold binary_round_aux.
  change (Z.pos _) with (Z.pos (Pos.iter xO m 52)) at 1.
  rewrite H1. cbn [shr_m loc_of_shr_record round_nearest_even]. rewrite H2.
  cbn [shr_m]. apply Z.leb_le in He. rewrite He. reflexivity.
Qed.

Lemma fmul_one_exact f : finite_double f = true -> fmul f one = f.
Proof.
  destruct f as [s| | |s m e]; try discriminate; intros H.
  - destruct s; reflexivity.
  - apply fmul_one_r. exact H.
Qed.

Lemma fmul_zero_r f z :
  finite_double f = true -> is_zero z = true -> is_zero (fmul f z) = true.
Proof.
  destruct f as [s| | |s m e], z as [sz| | |]; try discriminate; reflexivity.
Qed.

Lemma fadd_zeros a b :
  is_zero a = true -> is_zero b = true -> is_zero (fadd a b) = true.
Proof.
  destruct a as [[]| | |], b as [[]| | |]; try discriminate; reflexivity.
Qed.

Lemma fadd_zero_l z f :
  is_zero z = true -> finite_double f = true -> same_number (fadd z f) f.
Proof.
  destruct z as [sz| | |]; try discriminate. intros _.
  destruct f as [s| | |s m e]; try discriminate; intros _.
  - right. split; [|reflexivity]. destruct sz, s; reflexivity.
  - left. reflexivity.
Qed.

Lemma fadd_zero_r f z :
  finite_double f = true -> is_zero z = true -> same_number (fadd f z) f.
Proof.
  destruct z as [sz| | |]; try discriminate.
  destruct f as [s| | |s m e]; try discriminate; intros _ _.
  - right. split; [|reflexivity]. destruct sz, s; reflexivity.
  - left. reflexivity.
Qed.

Lemma fadd_zero_r_same a f z :
  finite_double f = true -> same_number a f -> is_zero z = true ->
  same_number (fadd a z) f.
Proof.
  intros Hf [-> | [Ha Hz]] Hzz.
  - apply fadd_zero_r; assumption.
  - right. split; [apply fadd_zeros; assumption|exact Hz].
Qed.

Lemma finite_double_fneg f : finite_double (fneg f) = finite_double f.
Proof. destruct f; reflexivity. Qed.

Lemma fleb_not_fltb a b : fleb a b = true -> fltb b a = false.
Proof.
  unfold fleb, fltb, SFleb, SFltb.
  destruct a as [[]|[]| |[] ma ea], b as [[]|[]| |[] mb eb]; simpl; try congruence;
    order_cases; simpl; try congruence; lia.
Qed.

(** A value that is not-a-number or of magnitude at most [pi] is not a
    heading of magnitude above [pi]. *)
Lemma out_of_range_is_not_returned (t r : float) :
  isnan r = true \/ fleb (fabs r) pi = true ->
  fgtb (fabs t) pi = true -> r <> t.
Proof.
  intros Hr Ht ->. destruct Hr as [Hn | Hle].
  - destruct t; discriminate.
  - apply fleb_not_fltb in Hle. unfold fgtb in Ht. unfold fltb in Hle.
    rewrite Hle in Ht. discriminate Ht.
Qed.

Section IdentityDelta.

Variables (libm_cos libm_sin : float -> float) (libm_atan2 : float -> float -> float).
Variable lapack_inv : Matrix float -> option (Matrix float).
Context {hlp : Helpers float}.

Local Abbreviation binary64 := (float_numeric libm_cos libm_sin libm_atan2 lapack_inv).

(** The product of a particle's pose matrix by an identity delta.  Each
    entry is a sum of one product by 1.0 and two products by a zero, so it
    is the same in whatever order the three are added. *)
Lemma move_by_identity_delta (delta : Matrix float) (p : Particle float) :
  identity_matrix delta ->
  finite_double (x p) = true -> finite_double (y p) = true ->
  finite_double (libm_cos (theta p)) = true ->
  finite_double (libm_sin (theta p)) = true ->
  let p' := @move_particle float binary64 delta p in
  same_number (x p') (x p) /\ same_number (y p') (y p) /\ w p' = w p /\
  exists s' c',
    same_number s' (libm_sin (theta p)) /\ same_number c' (libm_cos (theta p)) /\
    theta p' = libm_atan2 s' c'.
Proof.
  intros (D00 & D11 & D22 & Z01 & Z02 & Z10 & Z12 & Z20 & Z21) Hx Hy Hc Hs.
  cbv zeta. unfold move_particle, matmul, dot3, create_pose, set_theta, set_y, set_x.
  cbn [x y theta w m00 m01 m02 m10 m11 m12 m20 m21 m22
       num_add num_mul num_neg num_one num_zero np_cos np_sin np_arctan2
       float_numeric].
  rewrite ?D00, ?D11, ?D22.
  set (c := libm_cos (theta p)) in *. set (s := libm_sin (theta p)) in *.
  assert (Hns : finite_double (fneg s) = true) by (rewrite finite_double_fneg; exact Hs).
  rewrite !fmul_one_exact by assumption.
  split; [|split; [|split; [reflexivity|]]].
  - apply fadd_zero_l; [|exact Hx].
    apply fadd_zeros; apply fmul_zero_r; assumption.
  - apply fadd_zero_l; [|exact Hy].
    apply fadd_zeros; apply fmul_zero_r; assumption.
  - eexists. eexists. split; [|split; [|reflexivity]].
    + apply fadd_zero_r_same; [exact Hs| |apply fmul_zero_r; assumption].
      apply fadd_zero_r; [exact Hs|apply fmul_zero_r; assumption].
    + apply fadd_zero_r_same; [exact Hc| |apply fmul_zero_r; assumption].
      apply fadd_zero_r; [exact Hc|apply fmul_zero_r; assumption].
Qed.

(** The motion update when the reference matrix has an inverse. *)
Lemma odom_update_with_inverse (st : Node) (pose : Pose float)
      (cur : float * float * float) (inverse : Matrix float) :
  odom_pose st = Some pose ->
  current_odom_xy_theta st = Some cur ->
  lapack_inv (@create_pose float binary64 cur) = Some inverse ->
  @update_particles_with_odom float binary64 hlp st
  = (Returned tt,
     with_cloud
       (map (@move_particle float binary64
               (@matmul float binary64 inverse
                  (@create_pose float binary64 (convert_pose_to_xy_and_theta pose))))
            (particle_cloud st))
       (with_current_odom (Some (convert_pose_to_xy_and_theta pose)) st)).
Proof.
  intros Ho Hc Hi.
  unfold update_particles_with_odom, bind, gets, lift, modify, ret.
  rewrite Ho. cbn. rewrite Hc. cbn.
  change (lapack_inv (@create_pose float binary64 cur) = Some inverse) in Hi.
  rewrite Hi. reflexivity.
Qed.

(** C3, as the code has it on binary64, whatever the library routines
    return.  When the delta matrix the motion update computes is the
    identity, the update returns, and every particle whose position is
    finite and whose heading has a finite cosine and sine keeps its position
    (as numbers) and its weight.  Its heading is not kept as it is: it is
    replaced by [arctan2] of the sine and the cosine the code computed.  So,
    [arctan2] returning only not-a-number or values of magnitude at most
    [pi], a heading of magnitude above [pi] always changes. *)
Theorem identity_delta_rewrites_heading (st : Node) (pose : Pose float)
    (cur : float * float * float) (inverse : Matrix float) :
  odom_pose st = Some pose ->
  current_odom_xy_theta st = Some cur ->
  lapack_inv (@create_pose float binary64 cur) = Some inverse ->
  identity_matrix
    (@matmul float binary64 inverse
       (@create_pose float binary64 (convert_pose_to_xy_and_theta pose))) ->
  result (@update_particles_with_odom float binary64 hlp) st = Returned tt /\
  forall i p,
    nth_error (particle_cloud st) i = Some p ->
    finite_double (x p) = true -> finite_double (y p) = true ->
    finite_double (libm_cos (theta p)) = true ->
    finite_double (libm_sin (theta p)) = true ->
    exists p',
      nth_error
        (particle_cloud (exec (@update_particles_with_odom float binary64 hlp) st)) i
      = Some p' /\
      same_number (x p') (x p) /\ same_number (y p') (y p) /\ w p' = w p /\
      (exists s' c',
          same_number s' (libm_sin (theta p)) /\
          same_number c' (libm_cos (theta p)) /\
          theta p' = libm_atan2 s' c') /\
      ((forall b a, isnan (libm_atan2 b a) = true
                    \/ fleb (fabs (libm_atan2 b a)) pi = true) ->
       fgtb (fabs (theta p)) pi = true -> theta p' <> theta p).
Proof.
  intros Ho Hc Hi Hid. unfold result, exec.
  rewrite (odom_update_with_inverse st pose cur inverse Ho Hc Hi). cbn [fst snd].
  split; [reflexivity|].
  intros i p Hp Hx Hy Hcos Hsin. unfold with_cloud; cbn [particle_cloud].
  rewrite nth_error_map, Hp. cbn [option_map].
  eexists. split; [reflexivity|].
  destruct (move_by_identity_delta _ p Hid Hx Hy Hcos Hsin)
    as (Ex & Ey & Ew & s' & c' & Es & Ec & Et).
  split; [exact Ex|]. split; [exact Ey|]. split; [exact Ew|].
  split; [exists s', c'; split; [exact Es|split; [exact Ec|exact Et]]|].
  intros Hrange Hout. rewrite Et.
  apply out_of_range_is_not_returned; [apply Hrange|exact Hout].
Qed.

End IdentityDelta.

(** C3, as the specification states it, fails.  At rest (odometry pose and
    reference both at the origin with yaw 0, so that the delta is the
    identity), a particle of heading [2 * math.pi] comes out of the motion
    update with heading -2.4492935982947064e-16. *)
Lemma heading_two_pi_is_replaced :
  let st := Table.node_at_rest Table.two_pi in
  let update := @update_particles_with_odom float Table.numeric Fixture.helpers in
  current_odom_xy_theta st
  = option_map (@convert_pose_to_xy_and_theta float Fixture.helpers) (odom_pose st) /\
  result update st = Returned tt /\
  nth_error (particle_cloud st) 0 = Some (mkParticle zero zero Table.two_pi one) /\
  nth_error (particle_cloud (exec update st)) 0
  = Some (mkParticle zero zero Table.sin_two_pi one) /\
  nth_error (particle_cloud (exec update st)) 0 <> nth_error (particle_cloud st) 0.
Proof.
  cbv zeta.
  split; [reflexivity|]. split; [vm_compute; reflexivity|].
  split; [reflexivity|]. split; [vm_compute; reflexivity|].
  vm_compute. discriminate.
Qed.

(** The tabulated [arctan2] stays within [-pi, pi]. *)
Lemma table_arctan2_range b a :
  isnan (Table.arctan2 b a) = true \/ fleb (fabs (Table.arctan2 b a)) pi = true.
Proof.
  unfold Table.arctan2.
  destruct (SFeqb a one); [|left; reflexivity].
  destruct (is_zero b) eqn:Hz.
  - right. destruct b as [[]| | |]; try discriminate; reflexivity.
  - destruct (SFeqb b Table.sin_two_pi); [right|left]; reflexivity.
Qed.

(* ===================================================================== *)
(** * More on the motion update *)
(* ===================================================================== *)

Section OdomFrame.
Context {F : Type} {num : Numeric F} {hlp : Helpers F}.

Lemma move_particle_weight (delta : Matrix F) (p : Particle F) :
  w (move_particle delta p) = w p.
Proof. reflexivity. Qed.

(** X1.  Whatever the number type, the motion update changes no weight and
    not the odometry pose; when it returns, the odometry reference is the
    current odometry pose; it raises only for a missing odometry pose
    ([AttributeError]) or a reference matrix without inverse
    ([LinAlgError]), and then nothing has changed; with no reference yet it
    moves no particle. *)
Theorem odom_update_frame (st : ParticleFilter F) :
  let st' := exec update_particles_with_odom st in
  map w (particle_cloud st') = map w (particle_cloud st) /\
  odom_pose st' = odom_pose st /\
  (result update_particles_with_odom st = Returned tt ->
   current_odom_xy_theta st'
   = option_map convert_pose_to_xy_and_theta (odom_pose st)) /\
  (forall e, result update_particles_with_odom st = Raised e ->
             st' = st /\
             (e = AttributeError /\ odom_pose st = None
              \/ e = LinAlgError /\ odom_pose st <> None
                 /\ current_odom_xy_theta st <> None)) /\
  (current_odom_xy_theta st = None -> particle_cloud st' = particle_cloud st).
Proof.
  cbv zeta. unfold update_particles_with_odom, exec, result, bind, gets, lift,
    modify, ret, raise. cbn [fst snd].
  destruct (odom_pose st) as [pose|] eqn:Ho; cbn.
  2:{ rewrite Ho. split; [reflexivity|]. split; [reflexivity|].
      split; [discriminate|]. split; [|reflexivity].
      intros e [= <-]. split; [reflexivity|]. left. split; reflexivity. }
  destruct (current_odom_xy_theta st) as [current|] eqn:Hc; cbn.
  2:{ rewrite Ho. split; [reflexivity|]. split; [reflexivity|].
      split; [reflexivity|]. split; [discriminate|reflexivity]. }
  destruct (np_linalg_inv (create_pose current)) as [inverse|]; cbn.
  - rewrite Ho. split.
    { rewrite map_map. apply map_ext. intros p. apply move_particle_weight. }
    split; [reflexivity|]. split; [reflexivity|]. split; discriminate.
  - rewrite Ho, Hc. split; [reflexivity|]. split; [reflexivity|].
    split; [discriminate|]. split; [|discriminate].
    intros e [= <-]. split; [reflexivity|]. right. repeat split; discriminate.
Qed.
End OdomFrame.

(* ===================================================================== *)
(** * More on the measurement update *)
(* ===================================================================== *)

Section LaserEdges.
Context {num : Numeric float} {hlp : Helpers float}.

(** X5.  The measurement update raises [ValueError] on an empty scan and
    [IndexError] on an empty population (the scan not being empty), in both
    cases leaving every attribute as it was; with a scan and a population
    it returns. *)
Theorem laser_update_failures (st : Node) (r th : list float) :
  (r = [] ->
   update_particles_with_laser r th st = (Raised ValueError, st)) /\
  (r <> [] -> particle_cloud st = [] ->
   update_particles_with_laser r th st = (Raised IndexError, st)) /\
  (r <> [] -> particle_cloud st <> [] ->
   result (update_particles_with_laser r th) st = Returned tt).
Proof.
  unfold update_particles_with_laser, result, bind, gets, lift, modify, ret, raise.
  split; [|split].
  - intros ->. reflexivity.
  - intros Hr Hc. destruct r as [|a r]; [congruence|]. cbn. rewrite Hc. reflexivity.
  - intros Hr Hc. destruct r as [|a r]; [congruence|]. cbn.
    destruct (particle_cloud st) as [|p0 cloud]; [congruence|]. reflexivity.
Qed.
End LaserEdges.

Lemma fdiv_nonneg_or_nan q s :
  nonneg q = true -> nonneg s = true ->
  nonneg (fdiv q s) = true \/ fdiv q s = nan.
Proof.
  intros Hq Hs. destruct q as [[]|[]| |[] mq eq]; try discriminate.
  - destruct s as [[]|[]| |[] ms es]; try discriminate;
      (left; reflexivity) || (right; reflexivity).
  - destruct s as [[]|[]| |[] ms es]; try discriminate;
      (left; reflexivity) || (right; reflexivity).
  - left. apply fdiv_nonneg. exact Hs.
Qed.

Lemma fold_fadd_nonneg l : forall acc,
  nonneg acc = true -> Forall (fun a => nonneg a = true) l ->
  nonneg (fold_left fadd l acc) = true.
Proof.
  induction l as [|a l IH]; cbn [fold_left]; intros acc Hacc Hl; [exact Hacc|].
  inversion Hl; subst. apply IH; auto using fadd_nonneg.
Qed.

Lemma np_sum_nonneg l :
  Forall (fun a => nonneg a = true) l -> nonneg (Np.sum l) = true.
Proof. intros H. apply fold_fadd_nonneg; [reflexivity|exact H]. Qed.

Lemma existsb_isnan_false l :
  existsb isnan l = false ->
  Forall (fun a => nonneg a = true \/ a = nan) l ->
  Forall (fun a => nonneg a = true) l.
Proof.
  intros He Hl. apply Forall_forall. intros a Ha.
  rewrite Forall_forall in Hl. destruct (Hl a Ha) as [H | ->]; [exact H|].
  assert (existsb isnan l = true) by (apply existsb_exists; exists nan; auto).
  congruence.
Qed.

Lemma store_weight_nonneg pw :
  nonneg (snd pw) = true \/ snd pw = nan -> nonneg (w (store_weight pw)) = true.
Proof.
  unfold store_weight. intros [H | ->]; [|reflexivity].
  rewrite (nonneg_not_nan _ H). exact H.
Qed.

Lemma laser_weights_sign es ws :
  Forall (fun a => nonneg a = true) es ->
  laser_weights es = Some ws ->
  Forall (fun a => nonneg a = true \/ a = nan) ws.
Proof.
  intros Hes. unfold laser_weights.
  destruct (nth_error es 0) as [e0|] eqn:H0; [|discriminate]. intros [= <-].
  assert (He0 : nonneg e0 = true).
  { rewrite Forall_forall in Hes. apply Hes. eapply nth_error_In; exact H0. }
  set (ratios := map (fun e => fdiv e0 e) es).
  assert (Hr : Forall (fun a => nonneg a = true \/ a = nan) ratios).
  { apply Forall_forall. intros q Hq. apply in_map_iff in Hq as (e & <- & He).
    apply fdiv_nonneg_or_nan; [exact He0|].
    rewrite Forall_forall in Hes. apply Hes; exact He. }
  apply Forall_forall. intros a Ha. apply in_map_iff in Ha as (q & <- & Hq).
  destruct (existsb isnan ratios) eqn:En.
  - right. rewrite (np_sum_nan _ En). apply fdiv_nan_r.
  - pose proof (existsb_isnan_false _ En Hr) as Hnn.
    apply fdiv_nonneg_or_nan.
    + rewrite Forall_forall in Hnn. apply Hnn; exact Hq.
    + apply np_sum_nonneg; exact Hnn.
Qed.

Section LaserSign.
Context {num : Numeric float} {hlp : Helpers float}.

(** X6.  After a measurement update that returns, every stored weight is
    [+0], a positive number or [+inf]: never negative, never a negative zero
    and never not-a-number. *)
Theorem laser_weights_never_negative (st : Node) (r th : list float) :
  result (update_particles_with_laser r th) st = Returned tt ->
  Forall (fun q => nonneg (w q) = true)
         (particle_cloud (exec (update_particles_with_laser r th) st)).
Proof.
  intros Hret.
  destruct (Np.amin r) as [rd|] eqn:Hr.
  2:{ unfold update_particles_with_laser in Hret. run_monad.
      rewrite Hr in Hret. discriminate. }
  destruct (laser_weights (laser_errors rd (particle_distances (particle_cloud st))))
    as [ws|] eqn:Hw.
  2:{ unfold update_particles_with_laser in Hret. run_monad.
      rewrite Hr in Hret. cbn in Hret. rewrite Hw in Hret. discriminate. }
  unfold exec. rewrite (laser_update_returns st r th rd ws Hr Hw).
  cbn [snd]. unfold with_cloud; cbn [particle_cloud].
  pose proof (laser_weights_sign _ _ (laser_errors_nonneg rd _) Hw) as Hs.
  apply Forall_forall. intros q Hq. apply in_map_iff in Hq as ([q0 w_i] & <- & Hin).
  apply store_weight_nonneg. cbn [snd].
  rewrite Forall_forall in Hs. apply Hs. eapply in_combine_r; exact Hin.
Qed.

(** X7.  When no particle has a usable error (the scan's minimum is not a
    number, or every particle is off the map), every error is 5 and all
    particles end with the same weight. *)
Theorem unknown_distances_give_equal_weights (st : Node) (r th : list float)
  (rd : float) :
  Np.amin r = Some rd ->
  particle_cloud st <> [] ->
  (isnan rd = true \/
   forall p, In p (particle_cloud st) ->
             isnan (get_closest_obstacle_distance (x p) (y p)) = true) ->
  result (update_particles_with_laser r th) st = Returned tt /\
  forall p q,
    In p (particle_cloud (exec (update_particles_with_laser r th) st)) ->
    In q (particle_cloud (exec (update_particles_with_laser r th) st)) ->
    w p = w q.
Proof.
  intros Hr Hne Hunk.
  assert (Herr : forall p, In p (particle_cloud st) -> error_of rd p = five).
  { intros p Hp. unfold error_of.
    destruct Hunk as [Hn | Hn].
    - destruct rd; try discriminate.
      destruct (get_closest_obstacle_distance (x p) (y p)) as [[]|[]| |[] ? ?];
        reflexivity.
    - specialize (Hn p Hp).
      destruct (get_closest_obstacle_distance (x p) (y p)); try discriminate.
      reflexivity. }
  assert (Hes : laser_errors rd (particle_distances (particle_cloud st))
                = map (fun _ => five) (particle_cloud st)).
  { rewrite laser_errors_map. apply map_ext_in. exact Herr. }
  destruct (particle_cloud st) as [|p0 cloud] eqn:Hc; [congruence|].
  set (u := fdiv one (Np.sum (map (fun _ : Particle float => one) (p0 :: cloud)))).
  assert (Hw : laser_weights (laser_errors rd (particle_distances (particle_cloud st)))
               = Some (map (fun _ => u) (p0 :: cloud))).
  { rewrite Hc, Hes. unfold laser_weights. cbn [map nth_error].
    rewrite !map_map. reflexivity. }
  unfold result, exec. rewrite (laser_update_returns st r th rd _ Hr Hw).
  cbn [fst snd]. split; [reflexivity|].
  unfold with_cloud; cbn [particle_cloud]. rewrite Hc.
  assert (Hall : forall p, In p (map store_weight
                                   (combine (p0 :: cloud) (map (fun _ => u) (p0 :: cloud)))) ->
                           w p = w (store_weight (p0, u))).
  { intros p Hp. apply in_map_iff in Hp as ([p1 w1] & <- & Hin).
    apply in_combine_r in Hin. apply in_map_iff in Hin as (? & <- & _).
    unfold store_weight; cbn [fst snd]. destruct (isnan u); reflexivity. }
  intros p q Hp Hq. rewrite (Hall p Hp), (Hall q Hq). reflexivity.
Qed.

End LaserSign.

(* ===================================================================== *)
(** * More on the pose estimate *)
(* ===================================================================== *)

Section PoseFrame.
Context {num : Numeric float} {hlp : Helpers float}.

(** X8.  The pose estimator leaves the population, the odometry reference
    and the odometry pose as they are.  On an empty population it raises
    [ValueError] and nothing changes; otherwise it stores a pose and emits
    exactly one event: the map-to-odom correction with that pose and the
    odometry pose, or the warning when no odometry pose exists. *)
Theorem pose_estimate_frame (st : Node) :
  let st' := exec update_robot_pose st in
  particle_cloud st' = particle_cloud st /\
  current_odom_xy_theta st' = current_odom_xy_theta st /\
  odom_pose st' = odom_pose st /\
  (particle_cloud st = [] ->
   result update_robot_pose st = Raised ValueError /\ st' = st) /\
  (particle_cloud st <> [] ->
   exists pose,
     robot_pose st' = Some pose /\
     emitted st' = match odom_pose st with
                   | Some odom => FixMapToOdom pose odom
                   | None => WarnNoOdom
                   end :: emitted st).
Proof.
  cbv zeta.
  destruct (particle_cloud st) as [|p0 cloud] eqn:Hc.
  - unfold update_robot_pose, exec, result, bind, gets, lift, raise.
    rewrite Hc. cbn.
    split; [exact Hc|]. split; [reflexivity|]. split; [reflexivity|].
    split; [intros _; split; reflexivity|]. intros H; congruence.
  - destruct (argmax_in_range (map w (particle_cloud st))) as (k & Hk & Hlt).
    { rewrite Hc. discriminate. }
    rewrite length_map in Hlt.
    destruct (nth_error (particle_cloud st) k) as [p|] eqn:Hp.
    2:{ apply nth_error_None in Hp. lia. }
    unfold update_robot_pose, exec, result, bind, gets, lift, modify, ret.
    cbn [fst snd]. rewrite Hk. cbn. rewrite Hp. cbn.
    destruct (odom_pose st) as [odom|] eqn:Ho; cbn; rewrite ?Ho, ?Hc;
      (split; [reflexivity|]; split; [reflexivity|]; split; [reflexivity|];
       split; [discriminate|]; intros _; eexists; split; reflexivity).
Qed.
End PoseFrame.

(* ===================================================================== *)
(** * More on resampling *)
(* ===================================================================== *)

Lemma update_nth_twice {A} (f g : A -> A) (l : list A) : forall i,
  update_nth i g (update_nth i f l) = update_nth i (fun a => g (f a)) l.
Proof.
  induction l as [|a l IH]; intros [|i]; cbn; auto. now rewrite IH.
Qed.

Lemma in_update_nth {A} (f : A -> A) (l : list A) : forall i a,
  In a (update_nth i f l) ->
  In a l \/ exists b, nth_error l i = Some b /\ a = f b.
Proof.
  induction l as [|b l IH]; intros [|i] a; cbn; auto.
  - intros [<- | H]; [right; exists b; auto | left; auto].
  - intros [<- | H]; [left; auto|].
    destruct (IH i a H) as [H1 | H1]; auto.
Qed.

Section ReplaceStep.
Context {num : Numeric float} {hlp : Helpers float}.

Lemma particle_at_run (st : Node) i p :
  nth_error (particle_cloud st) i = Some p -> particle_at i st = (Returned p, st).
Proof. intros H. unfold particle_at, bind, gets, lift. rewrite H. reflexivity. Qed.

Lemma particle_at_fails (st : Node) i :
  nth_error (particle_cloud st) i = None -> particle_at i st = (Raised IndexError, st).
Proof. intros H. unfold particle_at, bind, gets, lift. rewrite H. reflexivity. Qed.

Lemma set_particle_run (st : Node) i f p :
  nth_error (particle_cloud st) i = Some p ->
  set_particle i f st
  = (Returned tt, with_cloud (update_nth i f (particle_cloud st)) st).
Proof.
  intros H. unfold set_particle, bind. rewrite (particle_at_run st i p H). reflexivity.
Qed.

(** One turn of the replacement loop, as a whole: either it raises on its
    first read and nothing changed, or the particle at [i_replace] takes the
    donor's [x] and [y] and a heading [theta donor + noise], keeps its
    weight, and one random sample is consumed. *)
Lemma replace_particle_run (st : Node) (i_replace i_new : nat) :
  (exists e, replace_particle (i_replace, i_new) st = (Raised e, st)) \/
  exists donor,
    nth_error (particle_cloud st) i_new = Some donor /\
    replace_particle (i_replace, i_new) st
    = (Returned tt,
       with_cloud
         (update_nth i_replace
            (fun p => mkParticle (x donor) (y donor)
                        (fadd (theta donor)
                           (fadd (fdiv (fneg pi) (of_Z 4))
                              (fmul (fsub (fdiv pi (of_Z 4)) (fdiv (fneg pi) (of_Z 4)))
                                    (rng st (rng_pos st)))))
                        (w p))
            (particle_cloud st))
         (with_rng_pos (S (rng_pos st)) st)).
Proof.
  destruct (nth_error (particle_cloud st) i_new) as [donor|] eqn:Hd.
  2:{ left. exists IndexError. unfold replace_particle, bind.
      rewrite (particle_at_fails st i_new Hd). reflexivity. }
  destruct (nth_error (particle_cloud st) i_replace) as [old|] eqn:Ho.
  2:{ left. exists IndexError. unfold replace_particle, bind.
      rewrite (particle_at_run st i_new donor Hd).
      unfold set_particle, bind. rewrite (particle_at_fails st i_replace Ho).
      reflexivity. }
  right. exists donor. split; [reflexivity|].
  set (c1 := update_nth i_replace (set_x (x donor)) (particle_cloud st)).
  assert (H1 : exists d1, nth_error c1 i_new = Some d1 /\ y d1 = y donor
                          /\ theta d1 = theta donor).
  { unfold c1. destruct (Nat.eq_dec i_replace i_new) as [<- | Hne].
    - rewrite nth_error_update_nth_same, Ho. cbn. eexists. split; [reflexivity|].
      assert (old = donor) by congruence. subst. auto.
    - rewrite nth_error_update_nth_other by exact Hne. exists donor. auto. }
  destruct H1 as (d1 & Hd1 & Hy1 & Ht1).
  assert (Ho1 : exists o1, nth_error c1 i_replace = Some o1).
  { unfold c1. rewrite nth_error_update_nth_same, Ho. cbn. eauto. }
  destruct Ho1 as (o1 & Ho1).
  set (c2 := update_nth i_replace (set_y (y d1)) c1).
  assert (H2 : exists d2, nth_error c2 i_new = Some d2 /\ theta d2 = theta donor).
  { unfold c2. destruct (Nat.eq_dec i_replace i_new) as [<- | Hne].
    - rewrite nth_error_update_nth_same, Hd1. cbn. eexists. split; [reflexivity|].
      exact Ht1.
    - rewrite nth_error_update_nth_other by exact Hne. exists d1. auto. }
  destruct H2 as (d2 & Hd2 & Ht2).
  assert (Ho2 : exists o2, nth_error c2 i_replace = Some o2).
  { unfold c2. rewrite nth_error_update_nth_same, Ho1. cbn. eauto. }
  destruct Ho2 as (o2 & Ho2).
  unfold replace_particle, bind.
  rewrite (particle_at_run st i_new donor Hd).
  rewrite (set_particle_run st i_replace _ old Ho). fold c1.
  rewrite (particle_at_run (with_cloud c1 st) i_new d1 Hd1).
  rewrite (set_particle_run (with_cloud c1 st) i_replace _ o1 Ho1).
  cbn [particle_cloud with_cloud]. fold c2.
  match goal with
  | |- context [particle_at i_new ?s] =>
      rewrite (particle_at_run s i_new d2 Hd2)
  end.
  unfold random_uniform, random_sample, bind, get, modify, ret. cbn [fst snd].
  match goal with
  | |- context [set_particle i_replace ?f ?s] =>
      rewrite (set_particle_run s i_replace f o2 Ho2)
  end.
  cbn. unfold with_cloud, with_rng_pos. cbn. f_equal. f_equal.
  unfold c2, c1. rewrite !update_nth_twice. rewrite Hy1, Ht2. reflexivity.
Qed.

End ReplaceStep.

Lemma positions_from_refl {F} (s : ParticleFilter F) : positions_from s s.
Proof. apply Forall_forall. intros p Hp. exists p. auto. Qed.

Lemma positions_from_trans {F} (s1 s2 s3 : ParticleFilter F) :
  positions_from s1 s2 -> positions_from s2 s3 -> positions_from s1 s3.
Proof.
  unfold positions_from. rewrite !Forall_forall. intros H12 H23 p3 Hp3.
  destruct (H23 p3 Hp3) as (p2 & Hp2 & Hx & Hy).
  destruct (H12 p2 Hp2) as (p1 & Hp1 & Hx' & Hy').
  exists p1. repeat split; congruence.
Qed.

Lemma positions_from_same_cloud {F} (s s' : ParticleFilter F) :
  particle_cloud s' = particle_cloud s -> positions_from s s'.
Proof.
  intros H. unfold positions_from. rewrite H. apply (positions_from_refl s).
Qed.

Lemma frame_nil_same_cloud {F} (s s' : ParticleFilter F) :
  frame [] s s' -> particle_cloud s' = particle_cloud s.
Proof.
  intros (_ & _ & H). apply nth_error_ext. intros j. apply H. intros [].
Qed.

Section ResamplePositions.
Context {num : Numeric float} {hlp : Helpers float}.

Lemma replace_particle_positions pair : keeps positions_from (replace_particle pair).
Proof.
  destruct pair as [i_replace i_new]. intros st. unfold exec.
  destruct (replace_particle_run st i_replace i_new) as [(e & ->) | (donor & Hd & ->)];
    cbn [snd]; [apply positions_from_refl|].
  unfold positions_from, with_cloud; cbn [particle_cloud].
  apply Forall_forall. intros p' Hp'.
  apply in_update_nth in Hp' as [Hin | (b & _ & ->)].
  - exists p'. auto.
  - exists donor. split; [eapply nth_error_In; exact Hd|]. split; reflexivity.
Qed.

(** X9.  After resampling, returned or raised, every particle stands at the
    position [(x, y)] of some particle of the population before it:
    resampling invents no position. *)
Theorem resampled_positions_come_from_the_population (st : Node) :
  Forall (fun p' => exists p, In p (particle_cloud st) /\ x p' = x p /\ y p' = y p)
         (particle_cloud (exec resample_particles st)).
Proof.
  change (positions_from st (exec resample_particles st)).
  unfold resample_particles, exec, bind, gets. cbn [fst snd].
  destruct (Np.percentile (map w (particle_cloud st)) (of_Z 20)) as [t|];
    cbn [lift ret raise fst snd]; [|apply positions_from_refl].
  set (L := Np.where_le (map w (particle_cloud st)) t).
  pose proof (random_choice_frame [] (length (map w (particle_cloud st)))
                (length L) (map w (particle_cloud st)) st) as H1.
  apply frame_nil_same_cloud, positions_from_same_cloud in H1.
  unfold exec in H1.
  destruct (random_choice _ _ _ st) as [[locs|e] s1]; cbn [snd] in *; [|exact H1].
  eapply positions_from_trans; [exact H1|].
  apply (keeps_for_each _ positions_from_refl positions_from_trans).
  intros pair _. apply replace_particle_positions.
Qed.

End ResamplePositions.

Lemma percentile_nonempty (l : list float) (q : float) :
  l <> [] -> exists t, Np.percentile l q = Some t.
Proof.
  destruct l as [|a l]; [congruence|]. intros _. unfold Np.percentile.
  destruct (existsb isnan (a :: l)); [eauto|].
  destruct (floorZ _); eauto.
Qed.

Lemma kahan_loop_nan l : forall c, Np.kahan_loop l nan c = nan.
Proof. induction l as [|d l IH]; intros c; cbn [Np.kahan_loop]; auto. Qed.

Lemma fsub_nan_l c : fsub nan c = nan.
Proof. reflexivity. Qed.

Lemma kahan_loop_with_nan l : forall sum c,
  existsb isnan l = true -> Np.kahan_loop l sum c = nan.
Proof.
  induction l as [|d l IH]; cbn [Np.kahan_loop existsb]; intros sum c H;
    [discriminate|].
  destruct (isnan d) eqn:Ed.
  - destruct d; try discriminate. fold nan. rewrite fsub_nan_l, fadd_nan_r.
    apply kahan_loop_nan.
  - apply IH. exact H.
Qed.

Lemma kahan_sum_with_nan l : existsb isnan l = true -> Np.kahan_sum l = nan.
Proof.
  destruct l as [|d l]; cbn [Np.kahan_sum existsb]; [discriminate|].
  destruct (isnan d) eqn:Ed; intros H.
  - destruct d; try discriminate. apply kahan_loop_nan.
  - apply kahan_loop_with_nan. exact H.
Qed.

Lemma kahan_loop_zeros l :
  Forall (fun a => a = zero) l -> Np.kahan_loop l zero zero = zero.
Proof.
  induction 1 as [|a l -> Hl IH]; cbn [Np.kahan_loop]; auto.
Qed.

Lemma kahan_sum_zeros l :
  Forall (fun a => a = zero) l -> Np.kahan_sum l = zero.
Proof.
  destruct 1 as [|a l -> Hl]; cbn [Np.kahan_sum]; [reflexivity|].
  apply kahan_loop_zeros. exact Hl.
Qed.

Section ResampleRejects.
Context {num : Numeric float} {hlp : Helpers float}.

(** X10.  On a population that is not empty, resampling raises
    [ValueError] and changes nothing when a weight is not a number, when a
    weight is negative, or when the weights sum further than [2^-26] from
    1. *)
Theorem resample_rejects_bad_weights (st : Node) :
  particle_cloud st <> [] ->
  existsb isnan (map w (particle_cloud st))
  || existsb (fun v => fltb v zero) (map w (particle_cloud st))
  || fgtb (fabs (fsub (Np.kahan_sum (map w (particle_cloud st))) one)) Np.atol
  = true ->
  resample_particles st = (Raised ValueError, st).
Proof.
  intros Hne Hbad.
  destruct (percentile_nonempty (map w (particle_cloud st)) (of_Z 20)) as (t & Ht).
  { destruct (particle_cloud st); [congruence|discriminate]. }
  unfold resample_particles, bind, gets, lift, ret. rewrite Ht.
  unfold random_choice.
  assert (Hrej : Np.choice_rejects (length (map w (particle_cloud st)))
                   (length (Np.where_le (map w (particle_cloud st)) t))
                   (map w (particle_cloud st)) = true).
  { unfold Np.choice_rejects.
    apply orb_true_iff in Hbad as [Hbad | Hbad];
      [apply orb_true_iff in Hbad as [Hbad | Hbad]|].
    - rewrite (kahan_sum_with_nan _ Hbad). cbn [isnan nan].
      rewrite !orb_true_r. reflexivity.
    - rewrite Hbad, !orb_true_r. reflexivity.
    - rewrite Hbad, !orb_true_r. reflexivity. }
  rewrite Hrej. reflexivity.
Qed.

Lemma resample_rejects_zero (st : Node) :
  particle_cloud st <> [] ->
  Forall (fun q => w q = zero) (particle_cloud st) ->
  resample_particles st = (Raised ValueError, st).
Proof.
  intros Hne Hz.
  destruct (percentile_nonempty (map w (particle_cloud st)) (of_Z 20)) as (t & Ht).
  { destruct (particle_cloud st); [congruence|discriminate]. }
  apply (resample_needs_normalised_weights st t Ht).
  rewrite kahan_sum_zeros; [reflexivity|].
  apply Forall_forall. intros a Ha. apply in_map_iff in Ha as (q & <- & Hq).
  rewrite Forall_forall in Hz. apply Hz; exact Hq.
Qed.

(** The measurement update when some error is zero, as a run. *)
Lemma zero_error_run (st : Node) (r th : list float) (rd : float) (i : nat)
  (p : Particle float) :
  Np.amin r = Some rd ->
  nth_error (particle_cloud st) i = Some p ->
  is_zero (error_of rd p) = true ->
  exists st',
    update_particles_with_laser r th st = (Returned tt, st') /\
    length (particle_cloud st') = length (particle_cloud st) /\
    odom_pose st' = odom_pose st /\
    Forall (fun q => w q = zero) (particle_cloud st').
Proof.
  intros Hr Hi Hz.
  assert (Hne : nth_error (laser_errors rd (particle_distances (particle_cloud st))) i
                = Some (error_of rd p)).
  { rewrite laser_errors_map, nth_error_map, Hi. reflexivity. }
  destruct (laser_weights (laser_errors rd (particle_distances (particle_cloud st))))
    as [ws|] eqn:Hw.
  2:{ unfold laser_weights in Hw.
      destruct (laser_errors rd (particle_distances (particle_cloud st)));
        [destruct i|]; discriminate. }
  eexists. split; [apply (laser_update_returns st r th rd ws Hr Hw)|].
  unfold with_cloud; cbn [particle_cloud odom_pose].
  split; [|split; [reflexivity|]].
  - rewrite length_map, length_combine, (laser_weights_length _ _ Hw),
      laser_errors_length, particle_distances_map, length_map.
    apply Nat.min_id.
  - pose proof (zero_error_weights _ _ _ _ (laser_errors_nonneg rd _) Hne Hz Hw) as Hall.
    apply Forall_forall. intros q Hq. apply in_map_iff in Hq as ([q0 w_i] & <- & Hin).
    apply store_weight_zero. cbn [snd].
    rewrite Forall_forall in Hall. apply Hall.
    eapply in_combine_r; exact Hin.
Qed.

(** X11.  A filter update in which some particle, once moved, predicts the
    observed minimum range exactly (its error is 0) raises [ValueError]: the
    measurement update zeroes every weight and the resampling refuses
    them. *)
Theorem exact_match_stops_the_update (st : Node) (r th : list float) (rd : float)
  (i : nat) (p : Particle float) :
  Np.amin r = Some rd ->
  result update_particles_with_odom st = Returned tt ->
  nth_error (particle_cloud (exec update_particles_with_odom st)) i = Some p ->
  is_zero (error_of rd p) = true ->
  result (filter_update r th) st = Raised ValueError.
Proof.
  intros Hr Hodom Hi Hz. unfold result, exec in *.
  unfold filter_update, bind.
  destruct (update_particles_with_odom st) as [o st1]. cbn [fst snd] in *. subst o.
  destruct (zero_error_run st1 r th rd i p Hr Hi Hz) as (st2 & Hrun & Hlen & _ & Hzero).
  rewrite Hrun.
  assert (Hne2 : particle_cloud st2 <> []).
  { intros E. rewrite E in Hlen. cbn in Hlen.
    destruct (particle_cloud st1); [destruct i; discriminate|discriminate]. }
  destruct (argmax_in_range (map w (particle_cloud st2))) as (k & Hk & Hlt).
  { destruct (particle_cloud st2); [congruence|discriminate]. }
  rewrite length_map in Hlt.
  destruct (nth_error (particle_cloud st2) k) as [pk|] eqn:Hpk.
  2:{ apply nth_error_None in Hpk. lia. }
  destruct (update_robot_pose_returns st2 k pk Hk Hpk) as (H1 & _ & H3).
  unfold result, exec in H1, H3.
  destruct (update_robot_pose st2) as [o st3]. cbn [fst snd] in *. subst o.
  rewrite resample_rejects_zero; [reflexivity| |].
  - rewrite H3. exact Hne2.
  - rewrite H3. exact Hzero.
Qed.

End ResampleRejects.

(* ===================================================================== *)
(** * The cycle of [run_loop] *)
(* ===================================================================== *)

Lemma wiring_refl {F} (s : ParticleFilter F) : wiring s s.
Proof. unfold wiring. tauto. Qed.

Lemma wiring_trans {F} (s1 s2 s3 : ParticleFilter F) :
  wiring s1 s2 -> wiring s2 s3 -> wiring s1 s3.
Proof.
  unfold wiring. intros (A1 & A2 & A3 & A4 & A5 & A6 & A7 & A8)
                        (B1 & B2 & B3 & B4 & B5 & B6 & B7 & B8).
  repeat split; try congruence. auto.
Qed.

Ltac wiring_step :=
  first
    [ apply (keeps_bind _ wiring_trans); [| intros ?]
    | apply (keeps_gets _ wiring_refl)
    | apply (keeps_get _ wiring_refl)
    | apply (keeps_lift _ wiring_refl)
    | apply (keeps_ret _ wiring_refl)
    | apply (keeps_raise _ wiring_refl)
    | apply keeps_modify; intros ?; unfold wiring; cbn; repeat split; auto; discriminate ].

Lemma odom_wiring {F} {num : Numeric F} {hlp : Helpers F} :
  keeps wiring (@update_particles_with_odom F num hlp).
Proof.
  unfold update_particles_with_odom.
  wiring_step; [wiring_step|]. wiring_step; [wiring_step|].
  wiring_step; [wiring_step|].
  destruct a1; repeat wiring_step.
Qed.

Section Wiring.
Context {num : Numeric float} {hlp : Helpers float}.

Lemma laser_wiring r th : keeps wiring (update_particles_with_laser r th).
Proof. unfold update_particles_with_laser. repeat wiring_step. Qed.

Lemma pose_wiring : keeps wiring update_robot_pose.
Proof.
  unfold update_robot_pose. repeat wiring_step.
  match goal with |- keeps _ (match ?o with _ => _ end) => destruct o end;
    wiring_step.
Qed.

Lemma particle_at_wiring i : keeps wiring (particle_at i).
Proof. unfold particle_at. repeat wiring_step. Qed.

Lemma set_particle_wiring i f : keeps wiring (set_particle i f).
Proof. unfold set_particle. wiring_step; [apply particle_at_wiring|wiring_step]. Qed.

Lemma random_sample_wiring : keeps wiring random_sample.
Proof. unfold random_sample. repeat wiring_step. Qed.

Lemma random_samples_wiring n : keeps wiring (random_samples n).
Proof.
  induction n as [|n IH]; cbn [random_samples]; [wiring_step|].
  wiring_step; [apply random_sample_wiring|].
  wiring_step; [exact IH|wiring_step].
Qed.

Lemma replace_particle_wiring pair : keeps wiring (replace_particle pair).
Proof.
  destruct pair as [i j]. unfold replace_particle, random_uniform.
  repeat first [ apply particle_at_wiring | apply set_particle_wiring
               | apply random_sample_wiring | wiring_step ].
Qed.

Lemma resample_wiring : keeps wiring resample_particles.
Proof.
  unfold resample_particles, random_choice.
  wiring_step; [wiring_step|]. wiring_step; [wiring_step|].
  wiring_step.
  - destruct (Np.choice_rejects _ _ _); [wiring_step|].
    wiring_step; [apply random_samples_wiring|wiring_step].
  - apply (keeps_for_each _ wiring_refl wiring_trans).
    intros pair _. apply replace_particle_wiring.
Qed.

Lemma filter_update_wiring r th : keeps wiring (filter_update r th).
Proof.
  unfold filter_update.
  wiring_step; [apply odom_wiring|]. wiring_step; [apply laser_wiring|].
  wiring_step; [apply pose_wiring|apply resample_wiring].
Qed.

Lemma initialize_wiring stamp v : keeps wiring (initialize_particle_cloud stamp v).
Proof.
  unfold initialize_particle_cloud.
  wiring_step.
  { destruct v; repeat wiring_step. }
  wiring_step; [wiring_step|]. wiring_step; [wiring_step|].
  destruct (a1 =? 0); [wiring_step|].
  destruct a as [[x0 y0] t0]. wiring_step; [wiring_step|apply pose_wiring].
Qed.

End Wiring.

Lemma quiet_refl {F} (s : ParticleFilter F) : quiet s s.
Proof. exists []. split; reflexivity. Qed.

Lemma quiet_trans {F} (s1 s2 s3 : ParticleFilter F) :
  quiet s1 s2 -> quiet s2 s3 -> quiet s1 s3.
Proof.
  intros (l1 & E1 & Q1) (l2 & E2 & Q2). exists (l2 ++ l1). split.
  - rewrite E2, E1. apply app_assoc.
  - rewrite forallb_app, Q1, Q2. reflexivity.
Qed.

Ltac quiet_step :=
  first
    [ apply (keeps_bind _ quiet_trans); [| intros ?]
    | apply (keeps_gets _ quiet_refl)
    | apply (keeps_get _ quiet_refl)
    | apply (keeps_lift _ quiet_refl)
    | apply (keeps_ret _ quiet_refl)
    | apply (keeps_raise _ quiet_refl)
    | apply keeps_modify; intros ?; exists []; split; reflexivity ].

Lemma odom_quiet {F} {num : Numeric F} {hlp : Helpers F} :
  keeps quiet (@update_particles_with_odom F num hlp).
Proof.
  unfold update_particles_with_odom.
  repeat first
    [ quiet_step
    | match goal with |- keeps _ (match ?o with _ => _ end) => destruct o end ].
Qed.

Section Quiet.
Context {num : Numeric float} {hlp : Helpers float}.

Lemma laser_quiet r th : keeps quiet (update_particles_with_laser r th).
Proof. unfold update_particles_with_laser. repeat quiet_step. Qed.

Lemma pose_quiet : keeps quiet update_robot_pose.
Proof.
  unfold update_robot_pose. repeat quiet_step.
  match goal with |- keeps _ (match ?o with _ => _ end) => destruct o end;
    apply keeps_modify; intros s; eexists [_]; split; reflexivity.
Qed.

Lemma random_sample_quiet : keeps quiet random_sample.
Proof. unfold random_sample. repeat quiet_step. Qed.

Lemma random_samples_quiet n : keeps quiet (random_samples n).
Proof.
  induction n as [|n IH]; cbn [random_samples]; [quiet_step|].
  quiet_step; [apply random_sample_quiet|].
  quiet_step; [exact IH|quiet_step].
Qed.

Lemma replace_particle_quiet pair : keeps quiet (replace_particle pair).
Proof.
  destruct pair as [i j].
  unfold replace_particle, set_particle, particle_at, random_uniform.
  repeat first [ apply random_sample_quiet | quiet_step ].
Qed.

Lemma resample_quiet : keeps quiet resample_particles.
Proof.
  unfold resample_particles, random_choice.
  quiet_step; [quiet_step|]. quiet_step; [quiet_step|].
  quiet_step.
  - destruct (Np.choice_rejects _ _ _); [quiet_step|].
    quiet_step; [apply random_samples_quiet|quiet_step].
  - apply (keeps_for_each _ quiet_refl quiet_trans).
    intros pair _. apply replace_particle_quiet.
Qed.

Lemma filter_update_quiet r th : keeps quiet (filter_update r th).
Proof.
  unfold filter_update.
  quiet_step; [apply odom_quiet|]. quiet_step; [apply laser_quiet|].
  quiet_step; [apply pose_quiet|apply resample_quiet].
Qed.

Lemma initialize_quiet stamp v : keeps quiet (initialize_particle_cloud stamp v).
Proof.
  unfold initialize_particle_cloud.
  repeat first
    [ apply pose_quiet
    | quiet_step
    | match goal with
      | |- keeps _ (match ?o with _ => _ end) => destruct o
      | |- keeps _ (if ?b then _ else _) => destruct b
      | |- keeps _ (let '(_, _) := ?a in _) => destruct a
      end ].
Qed.

End Quiet.

Section RunLoop.

Context {num : Numeric float} {hlp : Helpers float}.

Lemma run_loop_resolved (st : Node) stamp new_pose neg r th :
  scan_to_process st = Some stamp ->
  run_loop (Some new_pose) neg r th st
  = (cycle_body new_pose stamp r th ;;; publish_particles stamp)
      (with_odom_pose (Some new_pose) (with_scan None st)).
Proof.
  intros Hs. unfold run_loop, cycle_body, bind, gets, modify.
  rewrite Hs. cbn [fst snd].
  unfold with_odom_pose, with_scan. cbn [current_odom_xy_theta particle_cloud].
  destruct (current_odom_xy_theta st) as [c|]; [|reflexivity].
  destruct (particle_cloud st) as [|p cloud]; reflexivity.
Qed.

Lemma moved_wiring v : keeps wiring (moved_far_enough_to_update v).
Proof.
  unfold moved_far_enough_to_update.
  repeat first
    [ wiring_step
    | match goal with
      | |- keeps _ (let '(_, _) := ?a in _) => destruct a
      end ].
Qed.

Lemma moved_quiet v : keeps quiet (moved_far_enough_to_update v).
Proof.
  unfold moved_far_enough_to_update.
  repeat first
    [ quiet_step
    | match goal with
      | |- keeps _ (let '(_, _) := ?a in _) => destruct a
      end ].
Qed.

Lemma cycle_body_wiring new_pose stamp r th :
  keeps wiring (cycle_body new_pose stamp r th).
Proof.
  unfold cycle_body.
  wiring_step; [wiring_step|]. wiring_step; [wiring_step|].
  match goal with |- keeps _ (match ?c with _ => _ end) => destruct c as [c|] end.
  - match goal with |- keeps _ (match ?c with _ => _ end) => destruct c end.
    + apply initialize_wiring.
    + wiring_step; [apply moved_wiring|].
      match goal with |- keeps _ (if ?b then _ else _) => destruct b end;
        [apply filter_update_wiring|wiring_step].
  - wiring_step.
Qed.

Lemma cycle_body_quiet new_pose stamp r th :
  keeps quiet (cycle_body new_pose stamp r th).
Proof.
  unfold cycle_body.
  quiet_step; [quiet_step|]. quiet_step; [quiet_step|].
  match goal with |- keeps _ (match ?c with _ => _ end) => destruct c as [c|] end.
  - match goal with |- keeps _ (match ?c with _ => _ end) => destruct c end.
    + apply initialize_quiet.
    + quiet_step; [apply moved_quiet|].
      match goal with |- keeps _ (if ?b then _ else _) => destruct b end;
        [apply filter_update_quiet|quiet_step].
  - quiet_step.
Qed.

Lemma cycle_body_sets_reference new_pose stamp r th (s : Node) :
  current_odom_xy_theta (exec (cycle_body new_pose stamp r th) s) <> None.
Proof.
  destruct (current_odom_xy_theta s) as [c|] eqn:Hc.
  - destruct (cycle_body_wiring new_pose stamp r th s) as (_ & _ & _ & _ & _ & _ & _ & H).
    apply H. rewrite Hc. discriminate.
  - unfold cycle_body, exec, bind, gets, modify. rewrite Hc. cbn. discriminate.
Qed.

(** X12.  A cycle of [run_loop] with a scan pending and its odometry pose
    resolved always clears the pending scan, records the odometry pose and
    ends with an odometry reference, whether its steps return or raise; it
    never touches the last scan stamp, the particle count, the thresholds or
    the random stream. *)
Theorem run_loop_takes_the_scan (st : Node) (stamp : nat) (new_pose : Pose float)
  (neg : bool) (r th : list float) :
  scan_to_process st = Some stamp ->
  let st' := exec (run_loop (Some new_pose) neg r th) st in
  scan_to_process st' = None /\
  odom_pose st' = Some new_pose /\
  current_odom_xy_theta st' <> None /\
  last_scan_timestamp st' = last_scan_timestamp st /\
  n_particles st' = n_particles st /\
  d_thresh st' = d_thresh st /\
  a_thresh st' = a_thresh st /\
  rng st' = rng st.
Proof.
  intros Hs. cbv zeta. unfold exec. rewrite (run_loop_resolved st stamp _ _ _ _ Hs).
  set (st1 := with_odom_pose (Some new_pose) (with_scan None st)).
  pose proof (cycle_body_wiring new_pose stamp r th st1) as Hw.
  pose proof (cycle_body_sets_reference new_pose stamp r th st1) as Hr.
  unfold exec in Hw, Hr. unfold bind.
  destruct (cycle_body new_pose stamp r th st1) as [[[]|e] st2]; cbn [snd] in *;
    destruct Hw as (A1 & A2 & A3 & A4 & A5 & A6 & A7 & _);
    unfold publish_particles, modify; cbn; repeat split; auto.
Qed.

(** X13.  Such a cycle publishes the particle cloud at most once: when it
    returns, its latest event is the publication, under the scan's stamp, of
    exactly the population it ends with, and nothing else it emitted is a
    publication; when it raises, it published nothing. *)
Theorem run_loop_publishes_last (st : Node) (stamp : nat) (new_pose : Pose float)
  (neg : bool) (r th : list float) :
  scan_to_process st = Some stamp ->
  let st' := exec (run_loop (Some new_pose) neg r th) st in
  exists l,
    forallb (fun e => negb (is_publication e)) l = true /\
    match result (run_loop (Some new_pose) neg r th) st with
    | Returned _ =>
        emitted st'
        = PublishParticles stamp
            (map (fun p => (as_pose p, w p)) (particle_cloud st'))
          :: l ++ emitted st
    | Raised _ => emitted st' = l ++ emitted st
    end.
Proof.
  intros Hs. cbv zeta. unfold exec, result.
  rewrite (run_loop_resolved st stamp _ _ _ _ Hs).
  set (st1 := with_odom_pose (Some new_pose) (with_scan None st)).
  destruct (cycle_body_quiet new_pose stamp r th st1) as (l & El & Ql).
  unfold exec in El. unfold bind. exists l. split; [exact Ql|].
  destruct (cycle_body new_pose stamp r th st1) as [[[]|e] st2]; cbn [fst snd] in *.
  - unfold publish_particles, modify. cbn. rewrite El. reflexivity.
  - exact El.
Qed.

End RunLoop.

(* ===================================================================== *)
(** * Scans, seeding and the random stream *)
(* ===================================================================== *)

Section Gating.

Context {num : Numeric float} {hlp : Helpers float}.

(** X14.  Scans are taken one at a time.  Of two scans received in a row,
    the one kept for processing is the scan already pending, or else the
    first of the two, while the last stamp is that of the second; the
    population is untouched.  A cycle whose odometry pose is unresolved
    changes nothing unless the reported time difference is negative, in
    which case it drops the pending scan, and the next scan received is then
    accepted. *)
Theorem scans_are_gated (st : Node) (s1 s2 s3 : nat) (r th : list float) :
  let st2 := exec (scan_received s1 ;;; scan_received s2) st in
  scan_to_process st2
  = Some (match scan_to_process st with Some s => s | None => s1 end) /\
  last_scan_timestamp st2 = Some s2 /\
  particle_cloud st2 = particle_cloud st /\
  run_loop None false r th st2 = (Returned tt, st2) /\
  scan_to_process (exec (run_loop None true r th) st2) = None /\
  scan_to_process (exec (run_loop None true r th ;;; scan_received s3) st2) = Some s3.
Proof.
  cbv zeta. destruct st as [n d a pending last cloud cur odom robot stream pos ev].
  unfold scan_received, run_loop, exec, bind, gets, modify, ret,
    with_last_stamp, with_scan.
  destruct pending as [s|]; cbn; repeat split; reflexivity.
Qed.

(** X15.  Initialization without a mean pose raises [AttributeError] and
    changes nothing when no odometry pose exists, and otherwise is the
    initialization around the odometry pose; with a particle count of 0 it
    raises [ZeroDivisionError] after it has emptied the population. *)
Theorem initialize_edges (st : Node) (stamp : nat) :
  (odom_pose st = None ->
   initialize_particle_cloud stamp None st = (Raised AttributeError, st)) /\
  (forall pose, odom_pose st = Some pose ->
     initialize_particle_cloud stamp None st
     = initialize_particle_cloud stamp (Some (convert_pose_to_xy_and_theta pose)) st) /\
  (n_particles st = 0 -> forall v,
     initialize_particle_cloud stamp (Some v) st
     = (Raised ZeroDivisionError, with_cloud [] st)).
Proof.
  unfold initialize_particle_cloud, bind, gets, lift, modify, ret, raise.
  split; [|split].
  - intros ->. reflexivity.
  - intros pose ->. reflexivity.
  - intros Hn v. cbn. rewrite Hn. reflexivity.
Qed.

End Gating.

Section Seeding.

Context {num : Numeric float} {hlp : Helpers float}.

Lemma initialize_run (st : Node) stamp x0 y0 t0 :
  0 < n_particles st ->
  initialize_particle_cloud stamp (Some (x0, y0, t0)) st
  = update_robot_pose
      (with_cloud (map (seeded_particle (n_particles st) x0 y0 t0) (seq 0 (n_particles st))) st).
Proof.
  intros Hn. unfold initialize_particle_cloud, bind, gets, modify, ret.
  cbn [fst snd n_particles with_cloud].
  destruct (n_particles st =? 0) eqn:E; [apply Nat.eqb_eq in E; lia|].
  reflexivity.
Qed.

Lemma seeded_pose_run (st : Node) n x0 y0 t0 :
  0 < n ->
  let st1 := with_cloud (map (seeded_particle n x0 y0 t0) (seq 0 n)) st in
  update_robot_pose st1
  = (Returned tt,
     with_event
       match odom_pose st with
       | Some odom => FixMapToOdom (as_pose (seeded_particle n x0 y0 t0 0)) odom
       | None => WarnNoOdom
       end
       (with_robot_pose (Some (as_pose (seeded_particle n x0 y0 t0 0))) st1)).
Proof.
  intros Hn. cbv zeta.
  destruct n as [|n']; [lia|].
  unfold update_robot_pose, bind, gets, lift, modify, ret.
  cbn [fst snd particle_cloud with_cloud seq map Np.argmax w seeded_particle isnan one].
  rewrite argmax_from_stays.
  2:{ apply Forall_forall. intros a Ha. apply in_map_iff in Ha as (q & <- & Hq).
      apply in_map_iff in Hq as (i & <- & _). reflexivity. }
  cbn. destruct (odom_pose st); reflexivity.
Qed.

Lemma bind_run {S A B} (c : M S A) (k : A -> M S B) s a s' :
  c s = (Returned a, s') -> bind c k s = k a s'.
Proof. intros H. unfold bind. rewrite H. reflexivity. Qed.

Lemma cycle_body_unseeded (s : Node) new_pose stamp r th c :
  current_odom_xy_theta s = Some c -> particle_cloud s = [] ->
  cycle_body new_pose stamp r th s = initialize_particle_cloud stamp None s.
Proof.
  intros Hc Hp. unfold cycle_body, bind, gets. cbn [fst snd].
  rewrite Hc, Hp. reflexivity.
Qed.

Lemma initialize_from_odometry (s : Node) stamp pose :
  odom_pose s = Some pose ->
  initialize_particle_cloud stamp None s
  = initialize_particle_cloud stamp (Some (convert_pose_to_xy_and_theta pose)) s.
Proof.
  intros H. unfold initialize_particle_cloud, bind, gets, lift, ret.
  rewrite H. reflexivity.
Qed.

(** X16.  Starting without odometry reference and without particles, the
    first processed scan only records its odometry pose as the reference
    (the population stays empty); the second seeds the population around
    its own odometry pose, with the fan of headings and the first particle
    as pose estimate, and leaves the reference at the first pose. *)
Theorem first_two_scans_seed_the_filter (st : Node) (s1 s2 : nat)
  (pose1 pose2 : Pose float) (neg1 neg2 : bool) (r1 th1 r2 th2 : list float)
  (x2 y2 t2 : float) :
  current_odom_xy_theta st = None ->
  particle_cloud st = [] ->
  scan_to_process st = Some s1 ->
  0 < n_particles st ->
  convert_pose_to_xy_and_theta pose2 = (x2, y2, t2) ->
  let first := run_loop (Some pose1) neg1 r1 th1 in
  let second := scan_received s2 ;;; run_loop (Some pose2) neg2 r2 th2 in
  let st1 := exec first st in
  let st2 := exec second st1 in
  result first st = Returned tt /\
  particle_cloud st1 = [] /\
  current_odom_xy_theta st1 = Some (convert_pose_to_xy_and_theta pose1) /\
  result second st1 = Returned tt /\
  particle_cloud st2
  = map (seeded_particle (n_particles st) x2 y2 t2) (seq 0 (n_particles st)) /\
  current_odom_xy_theta st2 = Some (convert_pose_to_xy_and_theta pose1) /\
  robot_pose st2 = Some (as_pose (seeded_particle (n_particles st) x2 y2 t2 0)).
Proof.
  intros Hc Hp Hs Hn H2. cbv zeta.
  set (c1 := convert_pose_to_xy_and_theta pose1).
  (* the first cycle *)
  set (stA := with_event
                (PublishParticles s1
                   (map (fun p => (as_pose p, w p)) (particle_cloud st)))
                (with_current_odom (Some c1)
                   (with_odom_pose (Some pose1) (with_scan None st)))).
  assert (Hfirst : run_loop (Some pose1) neg1 r1 th1 st = (Returned tt, stA)).
  { rewrite (run_loop_resolved st s1 pose1 neg1 r1 th1 Hs).
    unfold cycle_body, publish_particles, bind, gets, modify,
      with_odom_pose, with_scan, with_current_odom.
    cbn. rewrite Hc. reflexivity. }
  (* the second scan arrives and is taken *)
  set (stB := with_scan (Some s2) (with_last_stamp (Some s2) stA)).
  assert (Hrecv : scan_received s2 stA = (Returned tt, stB)).
  { reflexivity. }
  set (stC := with_odom_pose (Some pose2) (with_scan None stB)).
  set (stD := with_cloud (map (seeded_particle (n_particles st) x2 y2 t2)
                              (seq 0 (n_particles st))) stC).
  set (stE := with_event (FixMapToOdom (as_pose (seeded_particle (n_particles st) x2 y2 t2 0)) pose2)
                (with_robot_pose (Some (as_pose (seeded_particle (n_particles st) x2 y2 t2 0))) stD)).
  assert (Hbody : cycle_body pose2 s2 r2 th2 stC = (Returned tt, stE)).
  { rewrite (cycle_body_unseeded stC pose2 s2 r2 th2 c1 eq_refl Hp).
    rewrite (initialize_from_odometry stC s2 pose2 eq_refl), H2.
    rewrite (initialize_run stC s2 x2 y2 t2 Hn).
    apply (seeded_pose_run stC (n_particles st) x2 y2 t2 Hn). }
  assert (Hsecond : (scan_received s2 ;;; run_loop (Some pose2) neg2 r2 th2) stA
                    = publish_particles s2 stE).
  { rewrite (bind_run _ _ _ _ _ Hrecv).
    rewrite (run_loop_resolved stB s2 pose2 neg2 r2 th2 eq_refl).
    fold stC.
    exact (bind_run _ (fun _ => publish_particles s2) _ _ _ Hbody). }
  unfold result, exec. rewrite Hfirst. cbn [fst snd]. rewrite Hsecond.
  split; [reflexivity|]. split; [exact Hp|]. split; [reflexivity|].
  split; [reflexivity|]. split; [reflexivity|]. split; reflexivity.
Qed.

End Seeding.

Lemma random_samples_run (n : nat) : forall (st : Node),
  random_samples n st
  = (Returned (map (fun k => rng st (rng_pos st + k)) (seq 0 n)),
     with_rng_pos (rng_pos st + n) st).
Proof.
  induction n as [|n IH]; intros st.
  - cbn. unfold ret, with_rng_pos. rewrite Nat.add_0_r.
    destruct st; reflexivity.
  - cbn [random_samples]. unfold bind at 1. unfold random_sample at 1.
    unfold bind, get, modify, ret. cbn [fst snd].
    rewrite IH. cbn [rng rng_pos with_rng_pos].
    f_equal.
    + f_equal. cbn [seq map]. rewrite Nat.add_0_r. f_equal.
      rewrite <- seq_shift, map_map. apply map_ext. intros k.
      f_equal. lia.
    + unfold with_rng_pos. cbn. f_equal. lia.
Qed.

Lemma replace_loop_samples (pairs : list (nat * nat)) : forall (st : Node),
  result (for_each replace_particle pairs) st = Returned tt ->
  rng_pos (exec (for_each replace_particle pairs) st) = rng_pos st + length pairs /\
  rng (exec (for_each replace_particle pairs) st) = rng st.
Proof.
  induction pairs as [|[i j] pairs IH]; intros st; cbn [for_each length].
  - intros _. cbn. split; [lia|reflexivity].
  - unfold result, exec, bind.
    destruct (replace_particle_run st i j) as [(e & ->) | (donor & _ & ->)];
      cbn [fst snd]; [discriminate|].
    intros H. destruct (IH _ H) as [H1 H2]. unfold exec in H1, H2.
    rewrite H1, H2. cbn. split; [lia|reflexivity].
Qed.

Lemma choice_indices_length p us : length (Np.choice_indices p us) = length us.
Proof. unfold Np.choice_indices. apply length_map. Qed.

(** X17.  A resampling that returns has consumed exactly two random samples
    per replaced particle (one for the donor draw, one for the heading
    noise) and leaves the random stream itself as it was. *)
Theorem resampling_draws_two_samples_per_replacement (st : Node) :
  result resample_particles st = Returned tt ->
  exists t,
    Np.percentile (map w (particle_cloud st)) (of_Z 20) = Some t /\
    rng_pos (exec resample_particles st)
    = rng_pos st + 2 * length (Np.where_le (map w (particle_cloud st)) t) /\
    rng (exec resample_particles st) = rng st.
Proof.
  unfold result, exec, resample_particles, bind, gets. cbn [fst snd].
  destruct (Np.percentile (map w (particle_cloud st)) (of_Z 20)) as [t|];
    cbn [lift ret raise fst snd]; [|discriminate].
  intros H. exists t. split; [reflexivity|].
  unfold random_choice in *.
  destruct (Np.choice_rejects _ _ _); [discriminate|].
  unfold bind in *. rewrite random_samples_run in *. cbn [fst snd ret] in *.
  unfold ret in *. cbn [fst snd] in *.
  set (L := Np.where_le (map w (particle_cloud st)) t) in *.
  match type of H with
  | fst (for_each replace_particle ?pairs ?s) = _ =>
      destruct (replace_loop_samples pairs s H) as [H1 H2];
      unfold exec in H1, H2; rewrite H1, H2;
      assert (Hlen : length pairs = length L)
  end.
  { rewrite length_combine, choice_indices_length, length_map, length_seq.
    apply Nat.min_id. }
  rewrite Hlen. cbn. split; [lia|reflexivity].
Qed.

(* ===================================================================== *)
(** * More on the update trigger *)
(* ===================================================================== *)

Lemma binary_round_aux_abs s m e l :
  fabs (binary_round_aux prec emax s m e l)
  = fabs (binary_round_aux prec emax false m e l).
Proof.
  unfold binary_round_aux.
  destruct (shr_fexp prec emax m e l) as [mrs' e'].
  destruct (shr_fexp prec emax _ e' loc_Exact) as [mrs'' e''].
  destruct (shr_m mrs''); [reflexivity| |reflexivity].
  destruct (e'' <=? emax - prec)%Z; reflexivity.
Qed.

Lemma binary_normalize_abs_opp m e :
  fabs (binary_normalize prec emax (- m) e false)
  = fabs (binary_normalize prec emax m e false).
Proof.
  destruct m as [|p|p]; cbn [Z.opp binary_normalize]; [reflexivity| |];
    unfold binary_round; destruct (shl_align _ _ _) as [mz ez];
    rewrite (binary_round_aux_abs true); reflexivity.
Qed.

Lemma fabs_fsub_sym a b : fabs (fsub a b) = fabs (fsub b a).
Proof.
  destruct a as [[]|[]| |sa ma ea], b as [[]|[]| |sb mb eb]; try reflexivity.
  unfold fsub, SFsub. rewrite (Z.min_comm eb ea).
  rewrite <- binary_normalize_abs_opp. f_equal. f_equal. lia.
Qed.

Section TriggerMore.

Context {num : Numeric float} {hlp : Helpers float}.

(** X18.  The update trigger depends on the magnitude of the change only:
    exchanging the odometry reference and the new pose gives the same
    decision; and a new pose whose three coordinates are not numbers never
    triggers an update. *)
Theorem trigger_ignores_direction_and_nan (st : Node)
  (nx ny nt cx cy ct : float) :
  current_odom_xy_theta st = Some (cx, cy, ct) ->
  result (moved_far_enough_to_update (nx, ny, nt)) st
  = result (moved_far_enough_to_update (cx, cy, ct))
           (with_current_odom (Some (nx, ny, nt)) st) /\
  (isnan nx = true -> isnan ny = true -> isnan nt = true ->
   moved_far_enough_to_update (nx, ny, nt) st = (Returned false, st)).
Proof.
  intros Hc. unfold moved_far_enough_to_update, result, bind, gets, lift, ret.
  rewrite Hc. cbn. split.
  - rewrite (fabs_fsub_sym nx cx), (fabs_fsub_sym ny cy), (fabs_fsub_sym nt ct).
    reflexivity.
  - intros Hx Hy Ht. destruct nx, ny, nt; try discriminate. cbn.
    unfold fgtb. cbn.
    destruct (d_thresh st), (a_thresh st); reflexivity.
Qed.

End TriggerMore.

(* ===================================================================== *)
(** * The theorems at work on the fixtures *)
(* ===================================================================== *)

(** C1 on the tracking node with a scan of minimum range 1: the second
    particle (predicted distance 3) gets its weight from the formula. *)
Lemma laser_weight_formula_witness :
  Np.amin [of_Z 1; of_Z 4] = Some (of_Z 1) /\
  nth_error (particle_cloud Fixture.tracking_node) 1 = Some (Fixture.particle 3 0 0 1) /\
  exists p0,
    nth_error (particle_cloud Fixture.tracking_node) 0 = Some p0 /\
    result (@update_particles_with_laser Fixture.helpers [of_Z 1; of_Z 4] [])
           Fixture.tracking_node = Returned tt.
Proof.
  split; [reflexivity|]. split; [reflexivity|].
  destruct (@laser_weight_formula Fixture.helpers Fixture.tracking_node
              [of_Z 1; of_Z 4] [] (of_Z 1) 1 (Fixture.particle 3 0 0 1)
              eq_refl eq_refl) as (p0 & H0 & H1 & _).
  exists p0. split; assumption.
Defined.

(** C2 on the same update. *)
Lemma laser_weights_never_nan_witness :
  result (@update_particles_with_laser Fixture.helpers [of_Z 1; of_Z 4] [])
         Fixture.tracking_node = Returned tt /\
  Forall (fun q => isnan (w q) = false)
         (particle_cloud
            (exec (@update_particles_with_laser Fixture.helpers [of_Z 1; of_Z 4] [])
                  Fixture.tracking_node)).
Proof.
  split; [reflexivity|].
  exact (proj1 (@laser_weights_never_nan Fixture.helpers Fixture.tracking_node
                  [of_Z 1; of_Z 4] [] eq_refl)).
Defined.

(** C10 on the tracking node with a scan of minimum range 2, which the
    first particle predicts exactly. *)
Lemma zero_error_zeroes_all_weights_witness :
  Np.amin [of_Z 2; of_Z 4] = Some (of_Z 2) /\
  nth_error (particle_cloud Fixture.tracking_node) 0 = Some (Fixture.particle 2 0 0 1) /\
  is_zero (@error_of Fixture.helpers (of_Z 2) (Fixture.particle 2 0 0 1)) = true /\
  Forall (fun q => w q = zero)
         (particle_cloud
            (exec (@update_particles_with_laser Fixture.helpers [of_Z 2; of_Z 4] [])
                  Fixture.tracking_node)).
Proof.
  split; [reflexivity|]. split; [reflexivity|]. split; [reflexivity|].
  exact (proj2 (@zero_error_zeroes_all_weights Fixture.helpers Fixture.tracking_node
                  [of_Z 2; of_Z 4] [] (of_Z 2) 0 (Fixture.particle 2 0 0 1)
                  eq_refl eq_refl eq_refl)).
Defined.

(** C7 on the tracking node. *)
Lemma pose_estimate_is_first_heaviest_witness :
  particle_cloud Fixture.tracking_node <> [] /\
  exists k p,
    nth_error (particle_cloud Fixture.tracking_node) k = Some p /\
    robot_pose (exec (@update_robot_pose Fixture.numeric Fixture.helpers)
                     Fixture.tracking_node)
    = Some (@as_pose float Fixture.numeric Fixture.helpers p).
Proof.
  assert (Hne : particle_cloud Fixture.tracking_node <> []) by discriminate.
  split; [exact Hne|].
  destruct (@pose_estimate_is_first_heaviest Fixture.numeric Fixture.helpers
              Fixture.tracking_node Hne) as (k & p & H1 & _ & H3 & _).
  exists k, p. split; assumption.
Defined.

(** C6 on the node as constructed (100 particles), seeded at the origin. *)
Lemma initial_cloud_is_heading_fan_witness :
  0 < n_particles (init_node Fixture.half_stream) /\
  length (particle_cloud
            (exec (@initialize_particle_cloud Fixture.numeric Fixture.helpers 3
                     (Some (zero, zero, zero)))
                  (init_node Fixture.half_stream)))
  = 100.
Proof.
  assert (Hn : 0 < n_particles (init_node Fixture.half_stream)) by (cbn; lia).
  split; [exact Hn|].
  exact (proj1 (proj2 (@initial_cloud_is_heading_fan Fixture.numeric Fixture.helpers
                         (init_node Fixture.half_stream) 3 zero zero zero Hn))).
Defined.


(** C3 on the node at rest whose particle has heading [2 * math.pi]: the
    particle stays at the origin with its weight, and its heading changes. *)
Lemma identity_delta_rewrites_heading_witness :
  let st := Table.node_at_rest Table.two_pi in
  let update := @update_particles_with_odom float Table.numeric Fixture.helpers in
  result update st = Returned tt /\
  exists p',
    nth_error (particle_cloud (exec update st)) 0 = Some p' /\
    same_number (x p') zero /\ same_number (y p') zero /\ w p' = one /\
    theta p' <> Table.two_pi.
Proof.
  cbv zeta.
  destruct (@identity_delta_rewrites_heading Table.cos Table.sin Table.arctan2
              Fixture.inv_identity Fixture.helpers
              (Table.node_at_rest Table.two_pi) Fixture.origin_pose
              (zero, zero, zero) Fixture.identity eq_refl eq_refl eq_refl
              (conj eq_refl (conj eq_refl (conj eq_refl (conj eq_refl (conj eq_refl
                 (conj eq_refl (conj eq_refl (conj eq_refl eq_refl)))))))))
    as [Hr Hp].
  split; [exact Hr|].
  destruct (Hp 0 (mkParticle zero zero Table.two_pi one)
              eq_refl eq_refl eq_refl eq_refl eq_refl)
    as (p' & H1 & Hx & Hy & Hw & _ & Ht).
  exists p'. split; [exact H1|]. split; [exact Hx|]. split; [exact Hy|].
  split; [exact Hw|]. exact (Ht table_arctan2_range eq_refl).
Defined.

(** X6 on the tracking node with a scan of minimum range 1. *)
Lemma laser_weights_never_negative_witness :
  result (@update_particles_with_laser Fixture.helpers [of_Z 1; of_Z 4] [])
         Fixture.tracking_node = Returned tt /\
  Forall (fun q => nonneg (w q) = true)
         (particle_cloud
            (exec (@update_particles_with_laser Fixture.helpers [of_Z 1; of_Z 4] [])
                  Fixture.tracking_node)).
Proof.
  split; [reflexivity|].
  exact (@laser_weights_never_negative Fixture.helpers Fixture.tracking_node
           [of_Z 1; of_Z 4] [] eq_refl).
Defined.

(** X7 on the tracking node with a scan whose only range is not a number. *)
Lemma unknown_distances_give_equal_weights_witness :
  Np.amin [nan] = Some nan /\
  particle_cloud Fixture.tracking_node <> [] /\
  isnan nan = true /\
  result (@update_particles_with_laser Fixture.helpers [nan] [])
         Fixture.tracking_node = Returned tt.
Proof.
  assert (Hne : particle_cloud Fixture.tracking_node <> []) by discriminate.
  split; [reflexivity|]. split; [exact Hne|]. split; [reflexivity|].
  exact (proj1 (@unknown_distances_give_equal_weights Fixture.helpers
                  Fixture.tracking_node [nan] [] nan eq_refl Hne
                  (or_introl eq_refl))).
Defined.

(** X10 on the tracking node as seeded: both weights are 1, their sum 2. *)
Lemma resample_rejects_bad_weights_witness :
  particle_cloud Fixture.tracking_node <> [] /\
  fgtb (fabs (fsub (Np.kahan_sum (map w (particle_cloud Fixture.tracking_node))) one))
       Np.atol = true /\
  resample_particles Fixture.tracking_node = (Raised ValueError, Fixture.tracking_node).
Proof.
  assert (Hne : particle_cloud Fixture.tracking_node <> []) by discriminate.
  split; [exact Hne|]. split; [reflexivity|].
  exact (resample_rejects_bad_weights Fixture.tracking_node Hne eq_refl).
Defined.

(** X11 on the tracking node, the odometry at rest and the scan's minimum
    range 2, which the first particle predicts. *)
Lemma exact_match_stops_the_update_witness :
  Np.amin [of_Z 2; of_Z 4] = Some (of_Z 2) /\
  result (@update_particles_with_odom float Fixture.numeric Fixture.helpers)
         Fixture.tracking_node = Returned tt /\
  is_zero (@error_of Fixture.helpers (of_Z 2) (Fixture.particle 2 0 0 1)) = true /\
  result (@filter_update Fixture.numeric Fixture.helpers [of_Z 2; of_Z 4] [])
         Fixture.tracking_node = Raised ValueError.
Proof.
  split; [reflexivity|]. split; [reflexivity|]. split; [reflexivity|].
  exact (@exact_match_stops_the_update Fixture.numeric Fixture.helpers
           Fixture.tracking_node [of_Z 2; of_Z 4] [] (of_Z 2) 0
           (Fixture.particle 2 0 0 1) eq_refl eq_refl eq_refl eq_refl).
Defined.

(** X12 on the tracking node, whose pending scan has stamp 7. *)
Lemma run_loop_takes_the_scan_witness :
  scan_to_process Fixture.tracking_node = Some 7 /\
  scan_to_process
    (exec (@run_loop Fixture.numeric Fixture.helpers (Some Fixture.origin_pose)
             false [of_Z 2] []) Fixture.tracking_node) = None.
Proof.
  split; [reflexivity|].
  exact (proj1 (@run_loop_takes_the_scan Fixture.numeric Fixture.helpers
                  Fixture.tracking_node 7 Fixture.origin_pose false [of_Z 2] []
                  eq_refl)).
Defined.

(** X13 on the same cycle. *)
Lemma run_loop_publishes_last_witness :
  scan_to_process Fixture.tracking_node = Some 7 /\
  exists l,
    forallb (fun e : Event float => negb (is_publication e)) l = true /\
    match result (@run_loop Fixture.numeric Fixture.helpers
                    (Some Fixture.origin_pose) false [of_Z 2] [])
                 Fixture.tracking_node with
    | Returned _ =>
        emitted (exec (@run_loop Fixture.numeric Fixture.helpers
                         (Some Fixture.origin_pose) false [of_Z 2] [])
                      Fixture.tracking_node)
        = PublishParticles 7
            (map (fun p => (@as_pose float Fixture.numeric Fixture.helpers p, w p))
                 (particle_cloud
                    (exec (@run_loop Fixture.numeric Fixture.helpers
                             (Some Fixture.origin_pose) false [of_Z 2] [])
                          Fixture.tracking_node)))
          :: l ++ emitted Fixture.tracking_node
    | Raised _ =>
        emitted (exec (@run_loop Fixture.numeric Fixture.helpers
                         (Some Fixture.origin_pose) false [of_Z 2] [])
                      Fixture.tracking_node)
        = l ++ emitted Fixture.tracking_node
    end.
Proof.
  split; [reflexivity|].
  exact (@run_loop_publishes_last Fixture.numeric Fixture.helpers
           Fixture.tracking_node 7 Fixture.origin_pose false [of_Z 2] [] eq_refl).
Defined.

(** X16 on the node as constructed, a first scan pending. *)
Lemma first_two_scans_seed_the_filter_witness :
  let st := with_scan (Some 1) (init_node Fixture.half_stream) in
  let first := @run_loop Fixture.numeric Fixture.helpers
                 (Some Fixture.origin_pose) false [of_Z 2] [] in
  let second := scan_received 2 ;;;
                @run_loop Fixture.numeric Fixture.helpers
                  (Some Fixture.origin_pose) false [of_Z 2] [] in
  current_odom_xy_theta st = None /\
  particle_cloud st = [] /\
  scan_to_process st = Some 1 /\
  0 < n_particles st /\
  length (particle_cloud (exec second (exec first st))) = 100.
Proof.
  cbv zeta.
  assert (Hn : 0 < n_particles (with_scan (Some 1) (init_node Fixture.half_stream)))
    by (cbn; lia).
  split; [reflexivity|]. split; [reflexivity|]. split; [reflexivity|].
  split; [exact Hn|].
  destruct (@first_two_scans_seed_the_filter Fixture.numeric Fixture.helpers
              (with_scan (Some 1) (init_node Fixture.half_stream)) 1 2
              Fixture.origin_pose Fixture.origin_pose false false
              [of_Z 2] [] [of_Z 2] [] zero zero zero
              eq_refl eq_refl eq_refl Hn eq_refl)
    as (_ & _ & _ & _ & H & _).
  rewrite H. rewrite length_map, length_seq. reflexivity.
Defined.

(** X17 on the tracking node after a measurement update with minimum range
    1: one particle is replaced, two samples are consumed. *)
Lemma resampling_draws_two_samples_per_replacement_witness :
  let st := exec (@update_particles_with_laser Fixture.helpers
                    [of_Z 1; of_Z 4] []) Fixture.tracking_node in
  result resample_particles st = Returned tt /\
  exists t,
    Np.percentile (map w (particle_cloud st)) (of_Z 20) = Some t /\
    rng_pos (exec resample_particles st)
    = rng_pos st + 2 * length (Np.where_le (map w (particle_cloud st)) t).
Proof.
  cbv zeta.
  assert (H : result resample_particles
                (exec (@update_particles_with_laser Fixture.helpers
                         [of_Z 1; of_Z 4] []) Fixture.tracking_node)
              = Returned tt) by (vm_compute; reflexivity).
  split; [exact H|].
  destruct (resampling_draws_two_samples_per_replacement _ H) as (t & H1 & H2 & _).
  exists t. split; assumption.
Defined.

(** X18 on the tracking node, whose reference is the origin. *)
Lemma trigger_ignores_direction_and_nan_witness :
  current_odom_xy_theta Fixture.tracking_node = Some (zero, zero, zero) /\
  result (moved_far_enough_to_update (one, zero, zero)) Fixture.tracking_node
  = result (moved_far_enough_to_update (zero, zero, zero))
           (with_current_odom (Some (one, zero, zero)) Fixture.tracking_node).
Proof.
  split; [reflexivity|].
  exact (proj1 (trigger_ignores_direction_and_nan Fixture.tracking_node
                  one zero zero zero zero zero eq_refl)).
Defined.
